(** * CryptoAgent: rate limiting, price cache, intent dispatch

    A shallow embedding of [src/main.py] (class [CryptoAgent]) and the
    properties of its control loop.

    Modelling conventions.
    - The agent object is the record [agent]; every method takes it and
      returns the updated one (explicit state passing).
    - [time.time()] is an input: each call site of the clock receives its
      reading as an integer number of ticks (one tick = one second, so the
      window constants are the source's 60).
    - The network, the language model and the [json] parser are the
      environment.  The price API answer and the completion answers are
      inputs of the call that consumes them; [json.loads] and the text form
      of container values are parameters of the section [Methods].
    - A method that can raise returns a [result]; the state it returns is the
      state at the point where the exception left it.  Only subclasses of
      Python's [Exception] are modelled.
    - Console output ([print]) is not modelled. *)

From stdpp Require Import base option list strings gmap pretty.
From Stdlib Require Import ZArith Lia Ascii.

Open Scope Z_scope.
Set Warnings "-register-all".

(* ------------------------------------------------------------------ *)
(** ** Python values *)

(** A parsed JSON document as Python sees it.  [JFloat] carries a float as
    its [repr] text (which determines the float); [JObj] lists the items of
    the dict. *)
Inductive json : Type :=
  | JNull
  | JBool (b : bool)
  | JInt (z : Z)
  | JFloat (repr : string)
  | JStr (s : string)
  | JArr (items : list json)
  | JObj (items : list (string * json)).

(** The exception classes the handlers tell apart. *)
Inductive exn : Type :=
  | RequestException      (* requests.RequestException and its subclasses *)
  | JSONDecodeError       (* json.JSONDecodeError *)
  | AttributeError
  | KeyError
  | TypeError
  | OtherException.       (* any other subclass of Exception *)

Inductive result (A : Type) : Type :=
  | Ok (a : A)
  | Raise (e : exn).
Arguments Ok {A} a.
Arguments Raise {A} e.

(** [d.get(k)] on a dict with [str] keys, for a [str] key. *)
Fixpoint dict_get (k : string) (d : list (string * json)) : option json :=
  match d with
  | [] => None
  | (k', v) :: d' => if String.eqb k k' then Some v else dict_get k d'
  end.

(** Hashing a key for a lookup in a dict whose keys are all [str]:
    lists and dicts are unhashable, a [str] is looked up, any other
    hashable value equals no [str] key. *)
Definition str_key (k : json) : result (option string) :=
  match k with
  | JStr s => Ok (Some s)
  | JArr _ | JObj _ => Raise TypeError
  | _ => Ok None
  end.

(** [bool(v)]. *)
Definition truthy (v : json) : bool :=
  match v with
  | JNull => false
  | JBool b => b
  | JInt z => negb (z =? 0)
  | JFloat r => negb (String.eqb r "0.0" || String.eqb r "-0.0")
  | JStr s => negb (String.eqb s "")
  | JArr l => match l with [] => false | _ => true end
  | JObj l => match l with [] => false | _ => true end
  end.

(* ------------------------------------------------------------------ *)
(** ** The agent *)

(** A message of the conversation: [{"role": role, "content": content}];
    the content the model returns may be [None]. *)
Record message : Type := Message { role : string; content : option string }.

(** A cache entry: [{'price': ..., 'timestamp': ...}]. *)
Record cache_entry : Type := CacheEntry { price : string; timestamp : Z }.

Record agent : Type := Agent {
  context : list message;
  cache : gmap string cache_entry;
  request_timestamps : list Z
}.

Definition rate_limit_window : Z := 60.
Definition rate_limit_max_requests : nat := 5.

(** [CryptoAgent.__init__]. *)
Definition init : agent := Agent [] ∅ [].

Definition add_message_to_context (a : agent) (r : string) (c : option string)
  : agent :=
  Agent (context a ++ [Message r c]) (cache a) (request_timestamps a).

(** The filter of line 30: a timestamp stays when [current_time - t] is
    below the window. *)
Definition in_window (current_time t : Z) : Prop :=
  current_time - t < rate_limit_window.

#[global] Instance in_window_dec now t : Decision (in_window now t).
Proof. unfold in_window. apply _. Defined.

(** [is_rate_limited], with the clock reading as argument. *)
Definition is_rate_limited (current_time : Z) (a : agent) : bool * agent :=
  let kept := filter (in_window current_time) (request_timestamps a) in
  if (rate_limit_max_requests <=? length kept)%nat
  then (true, Agent (context a) (cache a) kept)
  else (false, Agent (context a) (cache a) (kept ++ [current_time])).

(** A run of rate-limit checks, one per clock reading, oldest first. *)
Fixpoint limiter_run (clock : list Z) (a : agent) : list bool * agent :=
  match clock with
  | [] => ([], a)
  | now :: rest =>
      let '(limited, a1) := is_rate_limited now a in
      let '(answers, a2) := limiter_run rest a1 in
      (limited :: answers, a2)
  end.

(** Every check of the run finds all the timestamps recorded so far inside
    its window. *)
Fixpoint within_window (recorded clock : list Z) : Prop :=
  match clock with
  | [] => True
  | now :: rest =>
      Forall (in_window now) recorded ∧ within_window (recorded ++ [now]) rest
  end.

(* ------------------------------------------------------------------ *)
(** ** The price API *)

(** What [requests.get] meets: no answer at all (the call raises a
    [RequestException]), or a response with a status code and a body; the
    body is [None] when it is not JSON, else the document that
    [response.json()] returns.  The two library calls can also leave with an
    exception of their own that is no [RequestException]: [requests.get]
    (a [UnicodeEncodeError] for a symbol that cannot be encoded), and
    [response.json()] on a response with the given status (a [ValueError] for
    an integer beyond the digit limit, a [RecursionError]). *)
Inductive http_answer : Type :=
  | Unreachable
  | Response (status_code : Z) (body : option json)
  | GetRaises (e : exn)
  | JsonRaises (status_code : Z) (e : exn).

(** [response.raise_for_status()]: raises [HTTPError] on 4xx and 5xx. *)
Definition raise_for_status (status_code : Z) : bool :=
  (400 <=? status_code) && (status_code <? 600).

(** What one call of [get_crypto_price] reads from the outside: the clock
    inside [is_rate_limited], the clock of line 47, and the answer the API
    gives if it is asked. *)
Record price_env : Type := PriceEnv {
  clock_limit : Z;
  clock_cache : Z;
  api : http_answer
}.

Definition rate_limit_message : string :=
  "Rate limit exceeded. Please wait a moment before trying again.".
Definition failed_message : string := "Failed to fetch price.".
Definition not_available_message : string := "Price not available.".

(** Line 51: [cache_entry and (current_time - cache_entry['timestamp'] < 60)]. *)
Definition cache_hit (current_time : Z) (e : option cache_entry) : option string :=
  match e with
  | Some c => if decide (current_time - timestamp c < 60) then Some (price c) else None
  | None => None
  end.

(* ------------------------------------------------------------------ *)
(** ** The language model *)

Record tool_call : Type := ToolCall {
  function_name : string;
  function_arguments : string
}.

(** [response.choices[0].message]: its tool calls ([None] and the empty list
    are both the empty list here) and its content. *)
Record completion : Type := Completion {
  tool_calls : list tool_call;
  message_content : option string
}.

(** What one turn reads from the outside: the answer of
    [client.chat.completions.create] to a message list, with or without the
    tool declaration ([Raise] when the call, or reaching
    [choices[0].message], raises), and the price environment of the n-th
    price lookup of the turn. *)
Record turn_env : Type := TurnEnv {
  create : bool → list message → result completion;
  lookups : nat → price_env
}.

(* ------------------------------------------------------------------ *)
(** ** The fenced block of the classifier's pattern *)

Definition nl : string := String "010"%char EmptyString.
Definition fence_open : string := "```json" +:+ nl +:+ "{".
Definition fence_close : string := "}" +:+ nl +:+ "```".

(** [s] with the prefix [p] taken off. *)
Fixpoint strip_prefix (p s : string) : option string :=
  match p, s with
  | EmptyString, _ => Some s
  | String a p', String b s' => if Ascii.eqb a b then strip_prefix p' s' else None
  | String _ _, EmptyString => None
  end.

(** The shortest text before an occurrence of [fence_close] in [s]: what the
    lazy [.*?] matches. *)
Fixpoint until_close (s : string) : option string :=
  match strip_prefix fence_close s with
  | Some _ => Some EmptyString
  | None =>
      match s with
      | EmptyString => None
      | String c s' => String c <$> until_close s'
      end
  end.

(** [re.search(r'```json\n(\{.*?\})\n```', s, re.DOTALL)], giving group 1
    of the leftmost match. *)
Fixpoint re_search (s : string) : option string :=
  match
    match strip_prefix fence_open s with
    | Some rest => until_close rest
    | None => None
    end
  with
  | Some inside => Some ("{" +:+ inside +:+ "}")
  | None =>
      match s with
      | EmptyString => None
      | String _ s' => re_search s'
      end
  end.

(** [intent == "crypto"]: equality of a value with a [str]. *)
Definition is_str (v : json) (s : string) : bool :=
  match v with
  | JStr x => String.eqb x s
  | _ => false
  end.

(* ------------------------------------------------------------------ *)
(** ** Predicates of the statements and inputs of the examples *)

(** A transport failure, or a status on which [raise_for_status] raises. *)
Definition http_failure (answer : http_answer) : Prop :=
  match answer with
  | Unreachable => True
  | Response status_code _ => raise_for_status status_code = true
  | GetRaises e => e = RequestException
  | JsonRaises status_code _ => raise_for_status status_code = true
  end.

(** The value under ["usd"] inside the entry of [k] in the parsed body, when
    both dicts are there. *)
Definition usd_field (k : string) (data : list (string * json)) : option json :=
  match dict_get k data with
  | Some (JObj fields) => dict_get "usd" fields
  | _ => None
  end.

(** The entry of [k], when present, is a dict. *)
Definition entry_is_object (k : string) (data : list (string * json)) : Prop :=
  match dict_get k data with
  | Some (JObj _) | None => True
  | Some _ => False
  end.

(** The number of tool calls of a response that name [get_crypto_price]. *)
Fixpoint price_calls (calls : list tool_call) : nat :=
  match calls with
  | [] => 0
  | tc :: rest =>
      ((if String.eqb (function_name tc) "get_crypto_price" then 1 else 0)
       + price_calls rest)%nat
  end.

Definition is_assistant (msg : message) : Prop := role msg = "assistant".

Definition dq : string := String "034"%char EmptyString.

(** The body [{"bitcoin": {"usd": p}}]. *)
Definition bitcoin_body (p : json) : json :=
  JObj [("bitcoin", JObj [("usd", p)])].

Definition text_empty_object : string := "{}".
Definition text_intent_crypto : string :=
  "{" +:+ dq +:+ "intent" +:+ dq +:+ ": " +:+ dq +:+ "crypto" +:+ dq +:+ "}".
Definition text_symbol_bitcoin : string :=
  "{" +:+ dq +:+ "crypto_symbol" +:+ dq +:+ ": " +:+ dq +:+ "bitcoin" +:+ dq +:+ "}".

(** [json.loads] on the texts of the examples (a table of its values there;
    any other text is not used). *)
Definition loads_table (s : string) : option json :=
  if String.eqb s text_empty_object then Some (JObj [])
  else if String.eqb s text_intent_crypto then Some (JObj [("intent", JStr "crypto")])
  else if String.eqb s text_symbol_bitcoin then Some (JObj [("crypto_symbol", JStr "bitcoin")])
  else None.

(** No example prints a list or a dict. *)
Definition no_container (v : json) : string := "".

(** A fenced block around [inside]. *)
Definition fenced (inside : string) : string :=
  "```json" +:+ nl +:+ inside +:+ nl +:+ "```".

(** A turn in which every completion call answers with the text [reply] and
    no tool call. *)
Definition reply_env (reply : string) : turn_env :=
  TurnEnv (λ _ _, Ok (Completion [] (Some reply)))
          (λ _, PriceEnv 0 0 Unreachable).

(** A turn in which every completion call raises. *)
Definition failing_env : turn_env :=
  TurnEnv (λ _ _, Raise OtherException) (λ _, PriceEnv 0 0 Unreachable).

(** A turn in which the classifier's completion answers with a fenced
    [crypto] intent and the completion of the crypto branch raises. *)
Definition crypto_then_failure_env : turn_env :=
  TurnEnv (λ tools _, if tools then Raise OtherException
                      else Ok (Completion [] (Some (fenced text_intent_crypto))))
          (λ _, PriceEnv 0 0 Unreachable).

(** A turn in which the model asks for two price lookups, the second with
    arguments that are not JSON, and the API knows the price of bitcoin. *)
Definition two_calls_env : turn_env :=
  TurnEnv (λ _ _, Ok (Completion [ToolCall "get_crypto_price" text_symbol_bitcoin;
                                  ToolCall "get_crypto_price" "bitcoin"] None))
          (λ _, PriceEnv 100 100 (Response 200 (Some (bitcoin_body (JInt 65000))))).

(** A record that fills the window at clock reading 6. *)
Definition full_agent : agent := Agent [] ∅ [1; 2; 3; 4; 5].

Definition bitcoin_text : string := "The current price of bitcoin is $65000 USD.".

Definition text_intent_language : string :=
  "{" +:+ dq +:+ "intent" +:+ dq +:+ ": " +:+ dq +:+ "language_change" +:+ dq +:+ "}".

(** [json.loads] on the text of a [language_change] intent. *)
Definition loads_language (s : string) : option json :=
  if String.eqb s text_intent_language
  then Some (JObj [("intent", JStr "language_change")])
  else None.

(** An agent whose cache holds the price of bitcoin fetched at 100. *)
Definition cached_agent : agent :=
  Agent [] (<["bitcoin" := CacheEntry bitcoin_text 100]> ∅) [].

(** A turn in which the classifier's completion answers with a fenced
    [crypto] intent, the completion of the crypto branch asks for the price
    of bitcoin, and the API knows it. *)
Definition price_turn_env : turn_env :=
  TurnEnv (λ tools _,
             if tools
             then Ok (Completion [ToolCall "get_crypto_price" text_symbol_bitcoin] None)
             else Ok (Completion [] (Some (fenced text_intent_crypto))))
          (λ _, PriceEnv 100 100 (Response 200 (Some (bitcoin_body (JInt 65000))))).

(* ------------------------------------------------------------------ *)
(** ** The methods of [CryptoAgent] *)

Section Methods.

(** [json.loads]: [None] when it raises [json.JSONDecodeError]. *)
Variable json_loads : string → option json.

(** [str] of a list or a dict. *)
Variable container_str : json → string.

(** [format(v, '')], the text an f-string puts for [{v}]. *)
Definition py_str (v : json) : string :=
  match v with
  | JNull => "None"
  | JBool true => "True"
  | JBool false => "False"
  | JInt z => pretty z
  | JFloat r => r
  | JStr s => s
  | JArr _ | JObj _ => container_str v
  end.

Definition price_message (crypto_symbol price_value : json) : string :=
  "The current price of " +:+ py_str crypto_symbol +:+ " is $"
    +:+ py_str price_value +:+ " USD.".

(** Lines 62-71, the body of the [try] of [get_crypto_price]; [key] is the
    hashed [crypto_symbol].  [requests.get] raises when the API cannot be
    reached, [raise_for_status] on 4xx and 5xx, and [response.json()] on a
    body that is not JSON raises the [JSONDecodeError] of [requests], which
    is a [RequestException]; any other exception of the two library calls
    passes through.  A [.get] on a value that is not a dict raises
    [AttributeError].  With a key that is not a [str] the entry is the
    default [{}], which has no ["usd"]. *)
Definition fetch_price (crypto_symbol : json) (key : option string)
    (current_time : Z) (answer : http_answer) (a : agent)
  : result string * agent :=
  match answer with
  | Unreachable => (Raise RequestException, a)
  | Response status_code body =>
      if raise_for_status status_code then (Raise RequestException, a)
      else
        match body with
        | None => (Raise RequestException, a)
        | Some (JObj data) =>
            match key with
            | None => (Ok not_available_message, a)
            | Some k =>
                match default (JObj []) (dict_get k data) with
                | JObj fields =>
                    let price_value := default JNull (dict_get "usd" fields) in
                    if truthy price_value then
                      let text := price_message crypto_symbol price_value in
                      (Ok text,
                       Agent (context a)
                             (<[k := CacheEntry text current_time]> (cache a))
                             (request_timestamps a))
                    else (Ok not_available_message, a)
                | _ => (Raise AttributeError, a)
                end
            end
        | Some _ => (Raise AttributeError, a)
        end
  | GetRaises e => (Raise e, a)
  | JsonRaises status_code e =>
      if raise_for_status status_code then (Raise RequestException, a)
      else (Raise e, a)
  end.

(** [get_crypto_price]: the value returned or the exception raised, the
    agent afterwards, and the [ids] of the requests sent to the price API. *)
Definition get_crypto_price (crypto_symbol : json) (w : price_env) (a : agent)
  : result string * agent * list json :=
  let '(limited, a) := is_rate_limited (clock_limit w) a in
  if limited then (Ok rate_limit_message, a, [])
  else
    let current_time := clock_cache w in
    match str_key crypto_symbol with
    | Raise e => (Raise e, a, [])
    | Ok key =>
        let cache_entry := key ≫= (λ k, cache a !! k) in
        match cache_hit current_time cache_entry with
        | Some text => (Ok text, a, [])
        | None =>
            match fetch_price crypto_symbol key current_time (api w) a with
            | (Raise RequestException, a) => (Ok failed_message, a, [crypto_symbol])
            | (r, a) => (r, a, [crypto_symbol])
            end
        end
    end.

Definition intent_prompt (user_message : string) : list message :=
  [ Message "system" (Some "You are an AI assistant that helps classify user intents accurately to ensure smooth conversation flow.");
    Message "user" (Some ("Classify this query: '" +:+ user_message +:+ "'. Reply with a JSON object containing 'intent' as either 'crypto', 'general', or 'language_change'. Wrap the JSON response within triple backticks (```json ... ```). Make sure to provide a clear and definitive answer.")) ].

Definition general_intent : list (string * json) := [("intent", JStr "general")].

(** Lines 85-98, the body of the [try] of [classify_intent]. *)
Definition classify_try (w : turn_env) (user_message : string)
  : result (list (string * json)) :=
  match create w false (intent_prompt user_message) with
  | Raise e => Raise e
  | Ok response =>
      match message_content response with
      | None => Raise TypeError
      | Some response_text =>
          match re_search response_text with
          | Some group1 =>
              match json_loads group1 with
              | None => Raise JSONDecodeError
              | Some (JObj intent_data) =>
                  Ok [("intent", default JNull (dict_get "intent" intent_data))]
              | Some _ => Raise AttributeError
              end
          | None => Ok general_intent
          end
      end
  end.

Definition classify_intent (w : turn_env) (user_message : string)
  : result (list (string * json)) :=
  match classify_try w user_message with
  | Raise (JSONDecodeError | AttributeError | KeyError) => Ok general_intent
  | Raise _ => Ok general_intent
  | Ok classification => Ok classification
  end.

(** [v[k]] for a [str] index. *)
Definition subscript (v : json) (k : string) : result json :=
  match v with
  | JObj d =>
      match dict_get k d with
      | Some x => Ok x
      | None => Raise KeyError
      end
  | _ => Raise TypeError
  end.

Definition intro_message : string :=
  "Hello! You are interacting with a cryptocurrency expert. I can provide real-time crypto prices and answer related questions. If you misspell a crypto name, I will correct it for you.".

(** [any(msg["role"] == "assistant" for msg in self.context)]. *)
Definition has_assistant (ctx : list message) : bool :=
  existsb (λ msg, String.eqb (role msg) "assistant") ctx.

(** Lines 143-148. *)
Definition add_intro (a : agent) : agent :=
  if has_assistant (context a) then a
  else add_message_to_context a "assistant" (Some intro_message).

(** Lines 161-167, the loop over the tool calls; [n] counts the price
    lookups already made in this turn. *)
Fixpoint tool_loop (w : turn_env) (calls : list tool_call) (n : nat) (a : agent)
  : result unit * agent * list json :=
  match calls with
  | [] => (Ok (), a, [])
  | tc :: rest =>
      if String.eqb (function_name tc) "get_crypto_price" then
        match json_loads (function_arguments tc) with
        | None => (Raise JSONDecodeError, a, [])
        | Some arguments =>
            match subscript arguments "crypto_symbol" with
            | Raise e => (Raise e, a, [])
            | Ok crypto_symbol =>
                match get_crypto_price crypto_symbol (lookups w n) a with
                | (Raise e, a1, sent) => (Raise e, a1, sent)
                | (Ok price_info, a1, sent) =>
                    let a2 := add_message_to_context a1 "assistant" (Some price_info) in
                    let '(r, a3, sent') := tool_loop w rest (S n) a2 in
                    (r, a3, sent ++ sent')
                end
            end
        end
      else tool_loop w rest n a
  end.

(** Lines 152-171, the body of the [try] of [process_crypto_query]. *)
Definition crypto_try (w : turn_env) (a : agent)
  : result unit * agent * list json :=
  match create w true (context a) with
  | Raise e => (Raise e, a, [])
  | Ok response =>
      match tool_calls response with
      | [] =>
          (Ok (), add_message_to_context a "assistant" (message_content response), [])
      | calls => tool_loop w calls 0 a
      end
  end.

Definition process_crypto_query (w : turn_env) (user_message : string) (a : agent)
  : result unit * agent * list json :=
  match crypto_try w (add_intro a) with
  | (Raise (JSONDecodeError | AttributeError | KeyError), a, sent) => (Ok (), a, sent)
  | (Raise _, a, sent) => (Ok (), a, sent)
  | (Ok (), a, sent) => (Ok (), a, sent)
  end.

Definition language_change_message : string :=
  "I have noted your language change request. You can continue using the new language, but I will respond in English to ensure consistency and clarity.".

Definition process_language_change (user_message : string) (a : agent)
  : result unit * agent * list json :=
  (Ok (), add_message_to_context a "assistant" (Some language_change_message), []).

(** Lines 187-193, the body of the [try] of [process_general_query]. *)
Definition general_try (w : turn_env) (a : agent) : result unit * agent :=
  match create w false (context a) with
  | Raise e => (Raise e, a)
  | Ok response =>
      (Ok (), add_message_to_context a "assistant" (message_content response))
  end.

Definition process_general_query (w : turn_env) (a : agent)
  : result unit * agent * list json :=
  match general_try w a with
  | (Raise (AttributeError | KeyError), a) => (Ok (), a, [])
  | (Raise _, a) => (Ok (), a, [])
  | (Ok (), a) => (Ok (), a, [])
  end.

Definition process_user_message (w : turn_env) (user_message : string) (a : agent)
  : result unit * agent * list json :=
  let a := add_message_to_context a "user" (Some user_message) in
  match classify_intent w user_message with
  | Raise e => (Raise e, a, [])
  | Ok classification =>
      let intent := default (JStr "general") (dict_get "intent" classification) in
      if is_str intent "crypto" then process_crypto_query w user_message a
      else if is_str intent "language_change" then process_language_change user_message a
      else process_general_query w a
  end.

(** The turns of [start_conversation]: each line read (other than [exit])
    goes through [process_user_message]; an exception that reaches the loop
    is printed and the loop goes on. *)
Fixpoint conversation (turns : list (string * turn_env)) (a : agent)
  : agent * list json :=
  match turns with
  | [] => (a, [])
  | (user_input, w) :: rest =>
      let '(_, a1, sent) := process_user_message w user_input a in
      let '(a2, sent') := conversation rest a1 in
      (a2, sent ++ sent')
  end.

(** The number of turns of a conversation in which lines 143-148 add the
    introduction: the growth of the context across [add_intro] at each
    entry into the crypto branch. *)
Fixpoint intro_count (turns : list (string * turn_env)) (a : agent) : nat :=
  match turns with
  | [] => 0
  | (user_input, w) :: rest =>
      let a0 := add_message_to_context a "user" (Some user_input) in
      let here :=
        match classify_intent w user_input with
        | Ok classification =>
            if is_str (default (JStr "general") (dict_get "intent" classification)) "crypto"
            then (length (context (add_intro a0)) - length (context a0))%nat
            else 0%nat
        | Raise _ => 0%nat
        end in
      (here + intro_count rest (process_user_message w user_input a).1.2)%nat
  end.


(* ------------------------------------------------------------------ *)
(** ** Runs, observations and invariants *)

(** The clock readings of a run never go back, starting from [last]. *)
Fixpoint monotone_from (last : Z) (clock : list Z) : Prop :=
  match clock with
  | [] => True
  | now :: rest => last ≤ now ∧ monotone_from now rest
  end.

(** The readings of a run of rate-limit checks that were accepted. *)
Fixpoint accepted_run (clock : list Z) (a : agent) : list Z :=
  match clock with
  | [] => []
  | now :: rest =>
      (if (is_rate_limited now a).1 then [] else [now])
        ++ accepted_run rest (is_rate_limited now a).2
  end.

(** How many of the readings [l] fall in the 60 s that end at [e]. *)
Definition window_count (e : Z) (l : list Z) : nat :=
  length (filter (λ t, e - rate_limit_window < t ∧ t ≤ e) l).

(** A run of price lookups: the rate-limit clock readings of the lookups
    that sent a request to the API, and the agent at the end. *)
Fixpoint request_times (lookups : list (json * price_env)) (a : agent) : list Z :=
  match lookups with
  | [] => []
  | (crypto_symbol, w) :: rest =>
      (match (get_crypto_price crypto_symbol w a).2 with
       | [] => []
       | _ => [clock_limit w]
       end)
        ++ request_times rest (get_crypto_price crypto_symbol w a).1.2
  end.

(** Every cached text is the price message of its key for a truthy price. *)
Definition cache_formatted (c : gmap string cache_entry) : Prop :=
  ∀ k e, c !! k = Some e →
    ∃ price_value, truthy price_value = true
                   ∧ price e = price_message (JStr k) price_value.

(** The record of the rate limiter holds at most the allowed requests. *)
Definition record_bounded (a : agent) : Prop :=
  (length (request_timestamps a) ≤ rate_limit_max_requests)%nat.

Definition is_user (msg : message) : Prop := role msg = "user".

(** [c.lower()] on an ASCII letter; other bytes stay. *)
Definition ascii_lower (c : ascii) : ascii :=
  let n := nat_of_ascii c in
  if ((65 <=? n) && (n <=? 90))%nat then ascii_of_nat (n + 32) else c.

Fixpoint lower (s : string) : string :=
  match s with
  | EmptyString => EmptyString
  | String c s' => String (ascii_lower c) (lower s')
  end.

(** [user_input.lower() == "exit"], on the UTF-8 bytes of the line.  Outside
    ASCII only U+0130 and U+212A have a lowercase form with an ASCII letter
    (an [i] followed by a combining dot, and [k]), so the test holds exactly
    for the ASCII spellings of [exit]. *)
Definition is_exit (user_input : string) : bool :=
  String.eqb (lower user_input) "exit".

(** What [input("You: ")] gives: a line, with the environment of the turn it
    starts, or a [KeyboardInterrupt]. *)
Inductive input_event : Type :=
  | Line (user_input : string) (w : turn_env)
  | Interrupt.

(** [start_conversation] on the inputs it reads: the loop ends at [exit] and
    at an interrupt; an exception of [process_user_message] is printed and
    the loop goes on. *)
Fixpoint start_conversation (inputs : list input_event) (a : agent)
  : agent * list json :=
  match inputs with
  | [] => (a, [])
  | Interrupt :: _ => (a, [])
  | Line user_input w :: rest =>
      if is_exit user_input then (a, [])
      else
        let '(_, a1, sent) := process_user_message w user_input a in
        let '(a2, sent') := start_conversation rest a1 in
        (a2, sent ++ sent')
  end.

(** The lines that [start_conversation] processes: those before the first
    [exit] or interrupt. *)
Fixpoint processed_turns (inputs : list input_event) : list (string * turn_env) :=
  match inputs with
  | [] => []
  | Interrupt :: _ => []
  | Line user_input w :: rest =>
      if is_exit user_input then [] else (user_input, w) :: processed_turns rest
  end.

(* ------------------------------------------------------------------ *)
(** ** The crypto branch as the design describes it *)

(** Following the design of the crypto branch ("if the model response
    selects the tool, parse its arguments, call the price lookup, append the
    result as an assistant message"): the tool calls [calls] are all handled
    in this way, which takes the agent from [a] to [a'] and sends [sent];
    [n] is the number of price lookups made before in the turn.  Calls of
    other tools are passed over. *)
Inductive calls_completed (w : turn_env)
  : list tool_call → nat → agent → agent → list json → Prop :=
  | completed_nil n a : calls_completed w [] n a a []
  | completed_other tc rest n a a' sent :
      function_name tc ≠ "get_crypto_price" →
      calls_completed w rest n a a' sent →
      calls_completed w (tc :: rest) n a a' sent
  | completed_price tc rest n a arguments crypto_symbol price_info a1 sent1 a' sent :
      function_name tc = "get_crypto_price" →
      json_loads (function_arguments tc) = Some arguments →
      subscript arguments "crypto_symbol" = Ok crypto_symbol →
      get_crypto_price crypto_symbol (lookups w n) a = (Ok price_info, a1, sent1) →
      calls_completed w rest (S n)
        (add_message_to_context a1 "assistant" (Some price_info)) a' sent →
      calls_completed w (tc :: rest) n a a' (sent1 ++ sent).

(** The price call [tc], the [n]-th lookup of the turn, fails on the agent
    [a] with the exception [e], leaving the agent [a'] after sending [sent]:
    its arguments are not JSON, they have no [crypto_symbol], or the lookup
    raises.  In no case is a message appended. *)
Inductive call_fails (w : turn_env) (tc : tool_call) (n : nat) (a : agent)
  : exn → agent → list json → Prop :=
  | fails_arguments :
      json_loads (function_arguments tc) = None →
      call_fails w tc n a JSONDecodeError a []
  | fails_symbol arguments e :
      json_loads (function_arguments tc) = Some arguments →
      subscript arguments "crypto_symbol" = Raise e →
      call_fails w tc n a e a []
  | fails_lookup arguments crypto_symbol e a' sent :
      json_loads (function_arguments tc) = Some arguments →
      subscript arguments "crypto_symbol" = Ok crypto_symbol →
      get_crypto_price crypto_symbol (lookups w n) a = (Raise e, a', sent) →
      call_fails w tc n a e a' sent.

(** Following the design of the crypto branch and its failure semantics:
    the branch, entered on the agent [a0] in which the introduction is
    settled, ends the turn with [out].  The completion call raises and
    nothing is appended; or the model answers in prose, which is appended;
    or it selects tools and all calls are handled; or a price call fails
    after the calls before it were handled, and the calls after it are left
    alone.  In every case the handler returns normally. *)
Inductive crypto_branch_from (w : turn_env) (a0 : agent)
  : result unit * agent * list json → Prop :=
  | branch_completion_raises e :
      create w true (context a0) = Raise e →
      crypto_branch_from w a0 (Ok (), a0, [])
  | branch_prose response :
      create w true (context a0) = Ok response →
      tool_calls response = [] →
      crypto_branch_from w a0
        (Ok (), add_message_to_context a0 "assistant" (message_content response), [])
  | branch_calls_completed response a' sent :
      create w true (context a0) = Ok response →
      tool_calls response ≠ [] →
      calls_completed w (tool_calls response) 0 a0 a' sent →
      crypto_branch_from w a0 (Ok (), a', sent)
  | branch_call_fails response handled tc rest a1 sent1 e a2 sent2 :
      create w true (context a0) = Ok response →
      tool_calls response = handled ++ tc :: rest →
      function_name tc = "get_crypto_price" →
      calls_completed w handled 0 a0 a1 sent1 →
      call_fails w tc (price_calls handled) a1 e a2 sent2 →
      crypto_branch_from w a0 (Ok (), a2, sent1 ++ sent2).

(* ------------------------------------------------------------------ *)
(** ** The rate limiter *)

Lemma filter_in_window_all now (l : list Z) :
  Forall (in_window now) l → filter (in_window now) l = l.
Proof.
  induction 1 as [|t l Ht _ IH]; [done|].
  by rewrite filter_cons_True, IH.
Qed.

Lemma is_rate_limited_accepts now a :
  Forall (in_window now) (request_timestamps a) →
  (length (request_timestamps a) < rate_limit_max_requests)%nat →
  is_rate_limited now a
  = (false, Agent (context a) (cache a) (request_timestamps a ++ [now])).
Proof.
  intros Hall Hlen. unfold is_rate_limited.
  rewrite (filter_in_window_all _ _ Hall).
  destruct (Nat.leb_spec rate_limit_max_requests (length (request_timestamps a)));
    [lia|done].
Qed.

Lemma is_rate_limited_rejects now a :
  Forall (in_window now) (request_timestamps a) →
  (rate_limit_max_requests ≤ length (request_timestamps a))%nat →
  is_rate_limited now a
  = (true, Agent (context a) (cache a) (request_timestamps a)).
Proof.
  intros Hall Hlen. unfold is_rate_limited.
  rewrite (filter_in_window_all _ _ Hall).
  destruct (Nat.leb_spec rate_limit_max_requests (length (request_timestamps a)));
    [done|lia].
Qed.

Lemma within_window_app recorded c1 c2 :
  within_window recorded (c1 ++ c2)
  ↔ within_window recorded c1 ∧ within_window (recorded ++ c1) c2.
Proof.
  revert recorded. induction c1 as [|now c1 IH]; intros recorded; simpl.
  - rewrite app_nil_r. tauto.
  - rewrite IH, <- app_assoc. simpl. tauto.
Qed.

Lemma limiter_run_app c1 c2 a :
  limiter_run (c1 ++ c2) a
  = let '(ans1, a1) := limiter_run c1 a in
    let '(ans2, a2) := limiter_run c2 a1 in
    (ans1 ++ ans2, a2).
Proof.
  revert a. induction c1 as [|now c1 IH]; intros a; simpl.
  - by destruct (limiter_run c2 a).
  - destruct (is_rate_limited now a) as [limited a1]. rewrite IH.
    destruct (limiter_run c1 a1) as [ans1 a2].
    by destruct (limiter_run c2 a2).
Qed.

Lemma limiter_run_accepts clock : ∀ a,
  within_window (request_timestamps a) clock →
  (length (request_timestamps a) + length clock ≤ rate_limit_max_requests)%nat →
  limiter_run clock a
  = (replicate (length clock) false,
     Agent (context a) (cache a) (request_timestamps a ++ clock)).
Proof.
  induction clock as [|now rest IH]; intros a Hwin Hlen; simpl in *.
  - rewrite app_nil_r. by destruct a.
  - destruct Hwin as [Hall Hrest].
    rewrite is_rate_limited_accepts by (done || lia).
    rewrite IH; simpl; [|done|rewrite length_app; simpl; lia].
    by rewrite <- app_assoc.
Qed.

Lemma is_rate_limited_record now a :
  request_timestamps (is_rate_limited now a).2
  = filter (in_window now) (request_timestamps a)
    ++ (if (is_rate_limited now a).1 then [] else [now]).
Proof.
  unfold is_rate_limited.
  destruct (_ <=? _)%nat; simpl; by rewrite ?app_nil_r.
Qed.

Lemma is_rate_limited_frame now a :
  context (is_rate_limited now a).2 = context a
  ∧ cache (is_rate_limited now a).2 = cache a.
Proof. unfold is_rate_limited. by destruct (_ <=? _)%nat. Qed.

(** C1. Starting from any record, a run of checks that all see the recorded
    timestamps inside the 60 s window, and that brings the record to at most
    5 entries, is accepted throughout and appends every reading; when the
    record holds 5 entries the next check inside the window is rejected and
    records nothing; and each check decides on the record pruned of every
    timestamp at or before [now - 60], keeps every later one, and leaves no
    pruned timestamp in the record. *)
Theorem rate_limit_window_capacity (a : agent) :
  (∀ clock,
      within_window (request_timestamps a) clock →
      (length (request_timestamps a) + length clock ≤ rate_limit_max_requests)%nat →
      limiter_run clock a
      = (replicate (length clock) false,
         Agent (context a) (cache a) (request_timestamps a ++ clock)))
  ∧ (∀ clock now,
      within_window (request_timestamps a) (clock ++ [now]) →
      (length (request_timestamps a) + length clock = rate_limit_max_requests)%nat →
      limiter_run (clock ++ [now]) a
      = (replicate (length clock) false ++ [true],
         Agent (context a) (cache a) (request_timestamps a ++ clock)))
  ∧ (∀ now,
      (is_rate_limited now a).1
      = bool_decide (rate_limit_max_requests
                     ≤ length (filter (in_window now) (request_timestamps a)))%nat
      ∧ (∀ t, t ≤ now - rate_limit_window → t ∉ request_timestamps (is_rate_limited now a).2)
      ∧ (∀ t, t ∈ request_timestamps a → now - rate_limit_window < t →
              t ∈ request_timestamps (is_rate_limited now a).2)).
Proof.
  split; [|split].
  - intros clock. apply limiter_run_accepts.
  - intros clock now [Hwin [Hall _]]%within_window_app Hlen.
    rewrite limiter_run_app, limiter_run_accepts by (done || lia).
    cbn [limiter_run].
    rewrite is_rate_limited_rejects; cbn [request_timestamps]; [done|done|].
    rewrite length_app. lia.
  - intros now. split; [|split].
    + unfold is_rate_limited.
      destruct (Nat.leb_spec rate_limit_max_requests
                  (length (filter (in_window now) (request_timestamps a)))) as [H|H];
        simpl; symmetry; [by apply bool_decide_eq_true|apply bool_decide_eq_false; lia].
    + intros t Hold. rewrite is_rate_limited_record, elem_of_app, list_elem_of_filter.
      unfold in_window, rate_limit_window in *. intros [[? _]|Hin]; [lia|].
      destruct (is_rate_limited now a).1;
        [by apply elem_of_nil in Hin|apply list_elem_of_singleton in Hin; lia].
    + intros t Hin Hfresh. rewrite is_rate_limited_record, elem_of_app, list_elem_of_filter.
      left. split; [|done]. unfold in_window. lia.
Qed.

(* ------------------------------------------------------------------ *)
(** ** The price lookup *)

Lemma fetch_price_frame sym key now answer a :
  context (fetch_price sym key now answer a).2 = context a
  ∧ request_timestamps (fetch_price sym key now answer a).2 = request_timestamps a.
Proof.
  unfold fetch_price.
  repeat (simpl; case_match); done.
Qed.

Lemma fetch_price_failure sym key now answer a :
  http_failure answer →
  fetch_price sym key now answer a = (Raise RequestException, a).
Proof.
  destruct answer as [|status body|e|status e]; simpl; [done| | |];
    by intros ->.
Qed.

Lemma get_crypto_price_rejected sym w a :
  (is_rate_limited (clock_limit w) a).1 = true →
  get_crypto_price sym w a
  = (Ok rate_limit_message, (is_rate_limited (clock_limit w) a).2, []).
Proof.
  unfold get_crypto_price.
  destruct (is_rate_limited (clock_limit w) a) as [limited a1]; simpl.
  by intros ->.
Qed.

(** An accepted call with a [str] symbol that misses the cache is answered
    by [fetch_price] under the [except] clause of line 72. *)
Lemma get_crypto_price_fetches k w a :
  (is_rate_limited (clock_limit w) a).1 = false →
  cache_hit (clock_cache w) (cache a !! k) = None →
  get_crypto_price (JStr k) w a
  = match fetch_price (JStr k) (Some k) (clock_cache w) (api w)
            (is_rate_limited (clock_limit w) a).2 with
    | (Raise RequestException, a') => (Ok failed_message, a', [JStr k])
    | (r, a') => (r, a', [JStr k])
    end.
Proof.
  unfold get_crypto_price.
  pose proof (is_rate_limited_frame (clock_limit w) a) as [_ Hc].
  destruct (is_rate_limited (clock_limit w) a) as [limited a1]; simpl in *.
  intros -> Hmiss. rewrite Hc, Hmiss. done.
Qed.

Lemma get_crypto_price_cached k e w a :
  (is_rate_limited (clock_limit w) a).1 = false →
  cache a !! k = Some e →
  clock_cache w - timestamp e < 60 →
  get_crypto_price (JStr k) w a
  = (Ok (price e), (is_rate_limited (clock_limit w) a).2, []).
Proof.
  unfold get_crypto_price.
  pose proof (is_rate_limited_frame (clock_limit w) a) as [_ Hc].
  destruct (is_rate_limited (clock_limit w) a) as [limited a1]; simpl in *.
  intros -> He Hfresh. rewrite Hc, He. simpl.
  by rewrite decide_True.
Qed.

(** C2, at the input where it fails. An accepted lookup that misses the
    cache and receives a response on which [raise_for_status] stays silent,
    with a JSON body that is not an object, leaves [get_crypto_price] with
    an [AttributeError]: the [except] clause of line 72 names
    [requests.RequestException] only. *)
Theorem price_lookup_raises_on_non_object_body k w a status_code data :
  (is_rate_limited (clock_limit w) a).1 = false →
  cache_hit (clock_cache w) (cache a !! k) = None →
  api w = Response status_code (Some data) →
  raise_for_status status_code = false →
  (∀ items, data ≠ JObj items) →
  (get_crypto_price (JStr k) w a).1.1 = Raise AttributeError.
Proof.
  intros Hacc Hmiss Hapi Hstatus Hshape.
  rewrite get_crypto_price_fetches by done.
  unfold fetch_price. rewrite Hapi, Hstatus.
  destruct data; try done. by destruct (Hshape items).
Qed.

(** C3, amended. For a [str] symbol and a parsed 2xx response that is an
    object in which the symbol's entry, when present, is an object: when the
    symbol key or the [usd] field is absent, or the [usd] value is falsy
    (zero, null, false, empty), the lookup returns the price-not-available
    message and leaves the cache unchanged; when the [usd] value is truthy it
    returns the formatted price text and stores it under the symbol with the
    clock reading of line 47. *)
Theorem price_lookup_parsed_response k w a status_code data :
  (is_rate_limited (clock_limit w) a).1 = false →
  cache_hit (clock_cache w) (cache a !! k) = None →
  api w = Response status_code (Some (JObj data)) →
  200 ≤ status_code < 300 →
  entry_is_object k data →
  let out := get_crypto_price (JStr k) w a in
  match usd_field k data with
  | Some price_value =>
      if truthy price_value then
        out.1.1 = Ok (price_message (JStr k) price_value)
        ∧ cache out.1.2
          = <[k := CacheEntry (price_message (JStr k) price_value) (clock_cache w)]>
              (cache a)
      else out.1.1 = Ok not_available_message ∧ cache out.1.2 = cache a
  | None => out.1.1 = Ok not_available_message ∧ cache out.1.2 = cache a
  end.
Proof.
  intros Hacc Hmiss Hapi Hstatus Hobj out. subst out.
  rewrite get_crypto_price_fetches by done.
  pose proof (is_rate_limited_frame (clock_limit w) a) as [_ Hc].
  unfold fetch_price, usd_field, entry_is_object in *. rewrite Hapi.
  replace (raise_for_status status_code) with false
    by (unfold raise_for_status; lia).
  simpl. destruct (dict_get k data) as [[]|]; try done; simpl.
  - destruct (dict_get "usd" items) as [price_value|]; simpl; [|done].
    destruct (truthy price_value); simpl; [|done]. by rewrite Hc.
Qed.

(** C4. A lookup the rate limiter rejects returns the rate-limit message,
    leaves the cache as it was and sends no request; and when the API cannot
    be reached or answers with a 4xx or 5xx status, the cache is as it was
    after the lookup, whose answer, if a request was sent, is the
    failed-to-fetch message. *)
Theorem rejected_or_failed_lookup_keeps_cache crypto_symbol w a :
  ((is_rate_limited (clock_limit w) a).1 = true →
     (get_crypto_price crypto_symbol w a).1.1 = Ok rate_limit_message
     ∧ cache (get_crypto_price crypto_symbol w a).1.2 = cache a
     ∧ (get_crypto_price crypto_symbol w a).2 = [])
  ∧ (http_failure (api w) →
     cache (get_crypto_price crypto_symbol w a).1.2 = cache a
     ∧ ((get_crypto_price crypto_symbol w a).2 ≠ [] →
        (get_crypto_price crypto_symbol w a).1.1 = Ok failed_message)).
Proof.
  pose proof (is_rate_limited_frame (clock_limit w) a) as [_ Hc].
  split.
  - intros Hrej. rewrite get_crypto_price_rejected by done. done.
  - intros Hfail. unfold get_crypto_price.
    destruct (is_rate_limited (clock_limit w) a) as [limited a1]; simpl in *.
    destruct limited; [done|].
    destruct (str_key crypto_symbol) as [key|e]; [|done].
    destruct (cache_hit _ _); [done|].
    by rewrite fetch_price_failure.
Qed.

Lemma get_crypto_price_frame crypto_symbol w a :
  context (get_crypto_price crypto_symbol w a).1.2 = context a
  ∧ request_timestamps (get_crypto_price crypto_symbol w a).1.2
    = request_timestamps (is_rate_limited (clock_limit w) a).2.
Proof.
  unfold get_crypto_price.
  pose proof (is_rate_limited_frame (clock_limit w) a) as [Hctx _].
  destruct (is_rate_limited (clock_limit w) a) as [limited a1]; simpl in *.
  destruct limited; [done|].
  destruct (str_key crypto_symbol) as [key|e]; [|done].
  destruct (cache_hit _ _); [done|].
  pose proof (fetch_price_frame crypto_symbol key (clock_cache w) (api w) a1)
    as [Hf1 Hf2].
  destruct (fetch_price _ _ _ _ _) as [[text|[]] a2]; simpl in *; by rewrite ?Hf1, ?Hf2.
Qed.

Lemma get_crypto_price_sends_at_most_once crypto_symbol w a :
  (length (get_crypto_price crypto_symbol w a).2 ≤ 1)%nat.
Proof.
  unfold get_crypto_price.
  destruct (is_rate_limited (clock_limit w) a) as [[] a1]; simpl; [lia|].
  destruct (str_key crypto_symbol) as [key|e]; simpl; [|lia].
  destruct (cache_hit _ _); simpl; [lia|].
  destruct (fetch_price _ _ _ _ _) as [[text|[]] a2]; simpl; lia.
Qed.

Lemma fetch_price_cache crypto_symbol key now answer a :
  cache (fetch_price crypto_symbol key now answer a).2 = cache a
  ∨ ∃ k price_value,
      key = Some k ∧ truthy price_value = true
      ∧ fetch_price crypto_symbol key now answer a
        = (Ok (price_message crypto_symbol price_value),
           Agent (context a)
                 (<[k := CacheEntry (price_message crypto_symbol price_value) now]>
                    (cache a))
                 (request_timestamps a)).
Proof.
  unfold fetch_price. repeat case_match; simplify_eq/=; eauto 10.
Qed.

(** What a lookup does to the cache: nothing, or it stores under the [str]
    symbol the price message it returns, made from a truthy price, with the
    clock reading of line 47. *)
Lemma get_crypto_price_cache crypto_symbol w a :
  cache (get_crypto_price crypto_symbol w a).1.2 = cache a
  ∨ ∃ k price_value,
      crypto_symbol = JStr k
      ∧ truthy price_value = true
      ∧ (get_crypto_price crypto_symbol w a).1.1
        = Ok (price_message (JStr k) price_value)
      ∧ (get_crypto_price crypto_symbol w a).2 = [JStr k]
      ∧ cache (get_crypto_price crypto_symbol w a).1.2
        = <[k := CacheEntry (price_message (JStr k) price_value) (clock_cache w)]>
            (cache a).
Proof.
  unfold get_crypto_price.
  pose proof (is_rate_limited_frame (clock_limit w) a) as [_ Hc].
  destruct (is_rate_limited (clock_limit w) a) as [[] a1]; simpl in *; [by left|].
  destruct (str_key crypto_symbol) as [key|e] eqn:Hkey; [|by left].
  destruct (cache_hit _ _); simpl; [by left|].
  destruct (fetch_price_cache crypto_symbol key (clock_cache w) (api w) a1)
    as [Hsame|(k & price_value & -> & Htruthy & ->)].
  - left. rewrite <- Hc, <- Hsame.
    by destruct (fetch_price _ _ _ _ _) as [[text|[]] a2].
  - right. exists k, price_value.
    assert (crypto_symbol = JStr k) as -> by (by destruct crypto_symbol; simplify_eq/=).
    simpl. by rewrite Hc.
Qed.

Lemma price_message_is_no_fixed_message crypto_symbol price_value :
  price_message crypto_symbol price_value ≠ rate_limit_message
  ∧ price_message crypto_symbol price_value ≠ failed_message
  ∧ price_message crypto_symbol price_value ≠ not_available_message.
Proof. by unfold price_message. Qed.

(** C9, amended. When a lookup returns the text that the cache holds for the
    symbol afterwards (a price it has just fetched and stored, or one it
    served from a fresh entry), a second lookup of the same symbol that the
    rate limiter accepts and that reads the clock less than 60 s after the
    timestamp of that entry returns the same text and sends no request, so
    the two lookups together send at most one.  A lookup that returns the
    rate-limit, the failed-to-fetch or the price-not-available message
    leaves the cache as it was; a second lookup that the rate limiter
    accepts and that finds no fresh entry for the symbol then sends a
    request. *)
Theorem repeated_lookup_served_from_cache k w1 w2 a e :
  let out1 := get_crypto_price (JStr k) w1 a in
  let out2 := get_crypto_price (JStr k) w2 out1.1.2 in
  (out1.1.1 = Ok (price e) →
   cache out1.1.2 !! k = Some e →
   (is_rate_limited (clock_limit w2) out1.1.2).1 = false →
   clock_cache w2 - timestamp e < 60 →
   out2.1.1 = out1.1.1 ∧ out2.2 = [] ∧ (length (out1.2 ++ out2.2) ≤ 1)%nat)
  ∧ (out1.1.1 = Ok rate_limit_message ∨ out1.1.1 = Ok failed_message
     ∨ out1.1.1 = Ok not_available_message →
     cache out1.1.2 = cache a
     ∧ ((is_rate_limited (clock_limit w2) out1.1.2).1 = false →
        cache_hit (clock_cache w2) (cache a !! k) = None →
        out2.2 = [JStr k])).
Proof.
  intros out1 out2. split.
  - intros Hout Hentry Hacc Hfresh. subst out2.
    rewrite (get_crypto_price_cached k e) by done. simpl.
    rewrite app_nil_r. split; [done|]. split; [done|].
    apply get_crypto_price_sends_at_most_once.
  - intros Hfixed.
    assert (cache out1.1.2 = cache a) as Hsame.
    { destruct (get_crypto_price_cache (JStr k) w1 a)
        as [Hsame|(k' & p & _ & _ & Hout & _)]; [done|].
      fold out1 in Hout. rewrite Hout in Hfixed.
      destruct (price_message_is_no_fixed_message (JStr k') p) as (? & ? & ?).
      destruct Hfixed as [[=]|[[=]|[=]]]; done. }
    split; [done|]. intros Hacc Hmiss. subst out2.
    rewrite get_crypto_price_fetches by (by rewrite ?Hsame).
    by destruct (fetch_price _ _ _ _ _) as [[text|[]] a2].
Qed.

(** C10. Every lookup the rate limiter accepts leaves its clock reading
    appended to the pruned record, whatever happens afterwards; in
    particular a lookup answered from a fresh cache entry, which sends no
    request, has taken one of the 5 places of the window. *)
Theorem accepted_lookup_records_timestamp crypto_symbol w a :
  (is_rate_limited (clock_limit w) a).1 = false →
  request_timestamps (get_crypto_price crypto_symbol w a).1.2
  = filter (in_window (clock_limit w)) (request_timestamps a) ++ [clock_limit w]
  ∧ (∀ k e, crypto_symbol = JStr k → cache a !! k = Some e →
            clock_cache w - timestamp e < 60 →
            (get_crypto_price crypto_symbol w a).1.1 = Ok (price e)
            ∧ (get_crypto_price crypto_symbol w a).2 = []).
Proof.
  intros Hacc. split.
  - pose proof (get_crypto_price_frame crypto_symbol w a) as [_ ->].
    by rewrite is_rate_limited_record, Hacc.
  - intros k e -> He Hfresh. by rewrite (get_crypto_price_cached k e).
Qed.

(* ------------------------------------------------------------------ *)
(** ** The classifier *)

Lemma classify_intent_returns w user_message :
  ∃ v, classify_intent w user_message = Ok [("intent", v)].
Proof.
  unfold classify_intent, classify_try.
  repeat (case_match; simplify_eq/=); eauto.
Qed.

(** C5, amended. [classify_intent] never raises; it returns the [general]
    intent when the completion call raises, when the reply has no fenced
    block, and when the block does not parse; when the block parses to an
    object it returns the value of its [intent] field, and [None] when the
    field is missing; [process_user_message] sends every intent other than
    [crypto] and [language_change], [None] included, to the general
    handler. *)
Theorem classify_intent_defaults w user_message :
  (∃ v, classify_intent w user_message = Ok [("intent", v)])
  ∧ (∀ e, create w false (intent_prompt user_message) = Raise e →
          classify_intent w user_message = Ok general_intent)
  ∧ (∀ response response_text,
        create w false (intent_prompt user_message) = Ok response →
        message_content response = Some response_text →
        (re_search response_text = None →
           classify_intent w user_message = Ok general_intent)
        ∧ (∀ group1, re_search response_text = Some group1 →
             (json_loads group1 = None →
                classify_intent w user_message = Ok general_intent)
             ∧ (∀ intent_data v, json_loads group1 = Some (JObj intent_data) →
                  dict_get "intent" intent_data = Some v →
                  classify_intent w user_message = Ok [("intent", v)])
             ∧ (∀ intent_data, json_loads group1 = Some (JObj intent_data) →
                  dict_get "intent" intent_data = None →
                  classify_intent w user_message = Ok [("intent", JNull)])))
  ∧ (∀ v a, classify_intent w user_message = Ok [("intent", v)] →
        is_str v "crypto" = false → is_str v "language_change" = false →
        process_user_message w user_message a
        = process_general_query w (add_message_to_context a "user" (Some user_message))).
Proof.
  split; [|split; [|split]].
  - apply classify_intent_returns.
  - intros e He. unfold classify_intent, classify_try. rewrite He. by destruct e.
  - intros response response_text Hc Hm.
    unfold classify_intent, classify_try. rewrite Hc, Hm. split.
    + by intros ->.
    + intros group1 ->. split; [by intros ->|]. split.
      * by intros intent_data v -> ->.
      * by intros intent_data -> ->.
  - intros v a Hv Hc Hl. unfold process_user_message.
    rewrite Hv. simpl. by rewrite Hc, Hl.
Qed.

(* ------------------------------------------------------------------ *)
(** ** The conversation context *)

Lemma has_assistant_app l1 l2 :
  has_assistant (l1 ++ l2) = has_assistant l1 || has_assistant l2.
Proof. apply existsb_app. Qed.

Lemma has_assistant_prefix l1 l2 :
  l1 `prefix_of` l2 → has_assistant l1 = true → has_assistant l2 = true.
Proof. intros [k ->] H. by rewrite has_assistant_app, H. Qed.

Lemma add_intro_context a :
  context (add_intro a)
  = context a ++ (if has_assistant (context a) then []
                  else [Message "assistant" (Some intro_message)]).
Proof.
  unfold add_intro. destruct (has_assistant (context a)); simpl;
    by rewrite ?app_nil_r.
Qed.

Lemma add_intro_has_assistant a : has_assistant (context (add_intro a)) = true.
Proof.
  unfold add_intro. destruct (has_assistant (context a)) eqn:E; [done|].
  simpl. rewrite has_assistant_app. simpl. apply orb_true_r.
Qed.

(** The loop appends one assistant message per price lookup it completes,
    and fewer messages than there are price calls when it raises. *)
Lemma tool_loop_context w calls : ∀ n a,
  ∃ replies,
    context (tool_loop w calls n a).1.2 = context a ++ replies
    ∧ Forall is_assistant replies
    ∧ (length replies ≤ price_calls calls)%nat
    ∧ (∀ e, (tool_loop w calls n a).1.1 = Raise e →
            (length replies < price_calls calls)%nat).
Proof.
  induction calls as [|tc rest IH]; intros n a; simpl.
  - exists []. rewrite app_nil_r. repeat split; try done; simpl; lia.
  - destruct (String.eqb (function_name tc) "get_crypto_price").
    + destruct (json_loads (function_arguments tc)) as [arguments|]; simpl;
        [|exists []; rewrite app_nil_r; repeat split; try done; simpl; lia].
      destruct (subscript arguments "crypto_symbol") as [crypto_symbol|e0]; simpl;
        [|exists []; rewrite app_nil_r; repeat split; try done; simpl; lia].
      pose proof (get_crypto_price_frame crypto_symbol (lookups w n) a) as [Hctx _].
      destruct (get_crypto_price crypto_symbol (lookups w n) a)
        as [[[price_info|e1] a1] sent]; simpl in *;
        [|exists []; rewrite app_nil_r; repeat split; try done; simpl; lia].
      destruct (IH (S n) (add_message_to_context a1 "assistant" (Some price_info)))
        as (replies & Hc & Hall & Hlen & Hraise).
      destruct (tool_loop w rest (S n) _) as [[r a3] sent']; simpl in *.
      exists (Message "assistant" (Some price_info) :: replies).
      rewrite Hc, Hctx, <- app_assoc. repeat split; try done.
      * by constructor.
      * simpl. lia.
      * intros e He. specialize (Hraise e He). simpl. lia.
    + destruct (IH n a) as (replies & Hc & Hall & Hlen & Hraise).
      exists replies. repeat split; try done.
Qed.

Lemma crypto_try_context w a :
  ∃ replies,
    context (crypto_try w a).1.2 = context a ++ replies
    ∧ Forall is_assistant replies.
Proof.
  unfold crypto_try.
  destruct (create w true (context a)) as [response|e]; simpl;
    [|exists []; by rewrite app_nil_r].
  destruct (tool_calls response) as [|tc rest] eqn:Hcalls.
  - simpl. eexists. split; [done|]. by repeat constructor.
  - destruct (tool_loop_context w (tc :: rest) 0%nat a) as (replies & Hc & Hall & _).
    by exists replies.
Qed.

(** Both [except] clauses of the crypto handler end the turn in the state
    the [try] body left. *)
Lemma process_crypto_query_caught w user_message a :
  process_crypto_query w user_message a
  = (Ok (), (crypto_try w (add_intro a)).1.2, (crypto_try w (add_intro a)).2).
Proof.
  unfold process_crypto_query.
  by destruct (crypto_try w (add_intro a)) as [[[[]|[]] a1] sent].
Qed.

Lemma process_general_query_caught w a :
  process_general_query w a = (Ok (), (general_try w a).2, []).
Proof.
  unfold process_general_query.
  by destruct (general_try w a) as [[[]|[]] a1].
Qed.

Lemma general_try_context w a :
  context (general_try w a).2
  = context a ++ match create w false (context a) with
                 | Ok response => [Message "assistant" (message_content response)]
                 | Raise _ => []
                 end.
Proof.
  unfold general_try. destruct (create w false (context a)); simpl;
    by rewrite ?app_nil_r.
Qed.

Lemma process_crypto_query_prefix w user_message a :
  context a `prefix_of` context (process_crypto_query w user_message a).1.2.
Proof.
  rewrite process_crypto_query_caught. simpl.
  destruct (crypto_try_context w (add_intro a)) as (replies & -> & _).
  rewrite add_intro_context, <- app_assoc. by eexists.
Qed.

Lemma process_general_query_prefix w a :
  context a `prefix_of` context (process_general_query w a).1.2.
Proof.
  rewrite process_general_query_caught. simpl.
  rewrite general_try_context. by eexists.
Qed.

Lemma process_user_message_prefix w user_message a :
  context a ++ [Message "user" (Some user_message)]
    `prefix_of` context (process_user_message w user_message a).1.2.
Proof.
  unfold process_user_message.
  destruct (classify_intent w user_message) as [classification|e]; [|done].
  destruct (is_str _ "crypto"); [apply process_crypto_query_prefix|].
  destruct (is_str _ "language_change"); [by eexists|].
  apply process_general_query_prefix.
Qed.

Lemma process_user_message_returns w user_message a :
  (process_user_message w user_message a).1.1 = Ok ().
Proof.
  unfold process_user_message.
  destruct (classify_intent_returns w user_message) as [v ->]. simpl.
  destruct (is_str v "crypto"); [by rewrite process_crypto_query_caught|].
  destruct (is_str v "language_change"); [done|].
  by rewrite process_general_query_caught.
Qed.

Lemma conversation_prefix turns : ∀ a,
  context a `prefix_of` context (conversation turns a).1.
Proof.
  induction turns as [|[user_input w] rest IH]; intros a; simpl; [done|].
  pose proof (process_user_message_prefix w user_input a) as Hp.
  destruct (process_user_message w user_input a) as [[r a1] sent]; simpl in *.
  specialize (IH a1). destruct (conversation rest a1) as [a2 sent']; simpl in *.
  etrans; [|exact IH]. etrans; [|exact Hp]. by eexists.
Qed.

Lemma intro_step_size a :
  (length (context (add_intro a)) - length (context a))%nat
  = if has_assistant (context a) then 0%nat else 1%nat.
Proof.
  rewrite add_intro_context, length_app.
  destruct (has_assistant (context a)); simpl; lia.
Qed.

Lemma process_crypto_query_has_assistant w user_message a :
  has_assistant (context (process_crypto_query w user_message a).1.2) = true.
Proof.
  rewrite process_crypto_query_caught. simpl.
  destruct (crypto_try_context w (add_intro a)) as (replies & -> & _).
  by rewrite has_assistant_app, add_intro_has_assistant.
Qed.

Lemma intro_count_after_assistant turns : ∀ a,
  has_assistant (context a) = true → intro_count turns a = 0%nat.
Proof.
  induction turns as [|[user_input w] rest IH]; intros a Ha; simpl; [done|].
  rewrite IH.
  - destruct (classify_intent w user_input) as [classification|e]; [|done].
    destruct (is_str _ "crypto"); [|done].
    rewrite intro_step_size. simpl. rewrite has_assistant_app, Ha. done.
  - eapply has_assistant_prefix; [|exact Ha].
    etrans; [|apply process_user_message_prefix]. by eexists.
Qed.

(** The loop against the design: a loop that returns has handled all its
    calls; a loop that raises has handled the calls before a price call that
    fails, and has left the calls after it alone. *)
Lemma tool_loop_completed w calls : ∀ n a a' sent,
  tool_loop w calls n a = (Ok (), a', sent) → calls_completed w calls n a a' sent.
Proof.
  induction calls as [|tc rest IH]; intros n a a' sent; simpl.
  - intros [= <- <-]. constructor.
  - destruct (String.eqb_spec (function_name tc) "get_crypto_price") as [Hname|Hname].
    + destruct (json_loads (function_arguments tc)) as [arguments|] eqn:Hloads;
        [|done].
      destruct (subscript arguments "crypto_symbol") as [crypto_symbol|e0] eqn:Hsub;
        [|done].
      destruct (get_crypto_price crypto_symbol (lookups w n) a)
        as [[[price_info|e1] a1] sent1] eqn:Hlookup; [|done].
      destruct (tool_loop w rest (S n) _) as [[r a3] sent3] eqn:Hrest.
      intros [= -> <- <-]. eapply completed_price; eauto.
    + intros H. apply completed_other; auto.
Qed.

Lemma tool_loop_fails w calls : ∀ n a e a2 sent,
  tool_loop w calls n a = (Raise e, a2, sent) →
  ∃ handled tc rest a1 sent1 sent2,
    calls = handled ++ tc :: rest
    ∧ function_name tc = "get_crypto_price"
    ∧ calls_completed w handled n a a1 sent1
    ∧ call_fails w tc (n + price_calls handled) a1 e a2 sent2
    ∧ sent = sent1 ++ sent2.
Proof.
  induction calls as [|tc rest IH]; intros n a e a2 sent; simpl; [done|].
  destruct (String.eqb_spec (function_name tc) "get_crypto_price") as [Hname|Hname].
  - destruct (json_loads (function_arguments tc)) as [arguments|] eqn:Hloads.
    + destruct (subscript arguments "crypto_symbol") as [crypto_symbol|e0] eqn:Hsub.
      * destruct (get_crypto_price crypto_symbol (lookups w n) a)
          as [[[price_info|e1] a1] sent1] eqn:Hlookup.
        -- destruct (tool_loop w rest (S n) _) as [[r a3] sent3] eqn:Hrest.
           intros [= -> -> <-].
           destruct (IH _ _ _ _ _ Hrest)
             as (handled & tc' & rest' & a1' & s1 & s2 & -> & Hn & Hdone & Hfail & ->).
           exists (tc :: handled), tc', rest', a1', (sent1 ++ s1), s2.
           split; [done|]. split; [done|]. split.
           { eapply completed_price; eauto. }
           split; [|by rewrite app_assoc].
           simpl. rewrite Hname. simpl.
           by replace (n + S (price_calls handled))%nat
             with (S n + price_calls handled)%nat by lia.
        -- intros [= <- <- <-].
           exists [], tc, rest, a, [], sent1. simpl.
           rewrite Nat.add_0_r. repeat split; try done; [constructor|].
           eapply fails_lookup; eauto.
      * intros [= <- <- <-].
        exists [], tc, rest, a, [], []. simpl.
        rewrite Nat.add_0_r. repeat split; try done; [constructor|].
        eapply fails_symbol; eauto.
    + intros [= <- <- <-].
      exists [], tc, rest, a, [], []. simpl.
      rewrite Nat.add_0_r. repeat split; try done; [constructor|].
      by apply fails_arguments.
  - intros Hrest.
    destruct (IH _ _ _ _ _ Hrest)
      as (handled & tc' & rest' & a1' & s1 & s2 & -> & Hn & Hdone & Hfail & ->).
    exists (tc :: handled), tc', rest', a1', s1, s2.
    split; [done|]. split; [done|]. split; [by apply completed_other|].
    split; [|done]. simpl.
    by destruct (String.eqb_spec (function_name tc) "get_crypto_price").
Qed.

Lemma calls_completed_context w calls n a a' sent :
  calls_completed w calls n a a' sent →
  ∃ replies,
    context a' = context a ++ replies
    ∧ Forall is_assistant replies
    ∧ length replies = price_calls calls.
Proof.
  induction 1 as [n a|tc rest n a a' sent Hname _ IH
                 |tc rest n a arguments crypto_symbol price_info a1 sent1 a' sent
                    Hname Hloads Hsub Hlookup _ IH].
  - exists []. by rewrite app_nil_r.
  - destruct IH as (replies & -> & Hall & Hlen). exists replies.
    repeat split; try done. simpl.
    by destruct (String.eqb_spec (function_name tc) "get_crypto_price").
  - destruct IH as (replies & -> & Hall & Hlen).
    pose proof (get_crypto_price_frame crypto_symbol (lookups w n) a) as [Hctx _].
    rewrite Hlookup in Hctx. simpl in *.
    exists (Message "assistant" (Some price_info) :: replies).
    rewrite Hctx, <- app_assoc. repeat split; try done.
    + by constructor.
    + simpl. rewrite Hname. simpl. by rewrite Hlen.
Qed.

Lemma call_fails_context w tc n a e a' sent :
  call_fails w tc n a e a' sent → context a' = context a.
Proof.
  destruct 1 as [|arguments e|arguments crypto_symbol e a' sent _ _ Hlookup];
    try done.
  pose proof (get_crypto_price_frame crypto_symbol (lookups w n) a) as [Hctx _].
  by rewrite Hlookup in Hctx.
Qed.

Lemma crypto_try_branch w a0 :
  crypto_branch_from w a0
    (Ok (), (crypto_try w a0).1.2, (crypto_try w a0).2).
Proof.
  unfold crypto_try.
  destruct (create w true (context a0)) as [response|e] eqn:Hcreate.
  - destruct (tool_calls response) as [|tc rest] eqn:Hcalls.
    + by apply branch_prose.
    + destruct (tool_loop w (tc :: rest) 0 a0) as [[[[]|e] a2] sent] eqn:Hloop.
      * apply (branch_calls_completed w a0 response); [done|by rewrite Hcalls|].
        rewrite Hcalls. by apply tool_loop_completed.
      * destruct (tool_loop_fails _ _ _ _ _ _ _ Hloop)
          as (handled & tc' & rest' & a1 & s1 & s2 & Hsplit & Hn & Hdone & Hfail & ->).
        apply (branch_call_fails w a0 response handled tc' rest' a1 s1 e a2 s2);
          try done. by rewrite Hcalls.
  - by apply (branch_completion_raises w a0 e).
Qed.

Lemma no_assistant_has_assistant ctx :
  Forall (λ msg, role msg ≠ "assistant") ctx → has_assistant ctx = false.
Proof.
  induction 1 as [|msg ctx Hmsg _ IH]; [done|]. simpl. rewrite IH.
  by destruct (String.eqb_spec (role msg) "assistant").
Qed.

Lemma some_assistant_has_assistant ctx :
  Exists is_assistant ctx ↔ has_assistant ctx = true.
Proof.
  unfold has_assistant, is_assistant. induction ctx as [|msg ctx IH]; simpl.
  - split; [by intros ?%Exists_nil|done].
  - rewrite Exists_cons, IH, orb_true_iff.
    by destruct (String.eqb_spec (role msg) "assistant"); intuition.
Qed.

Lemma add_intro_first a :
  Forall (λ msg, role msg ≠ "assistant") (context a) →
  add_intro a = add_message_to_context a "assistant" (Some intro_message).
Proof. intros H. unfold add_intro. by rewrite no_assistant_has_assistant. Qed.

Lemma add_intro_later a : Exists is_assistant (context a) → add_intro a = a.
Proof.
  intros H%some_assistant_has_assistant. unfold add_intro. by rewrite H.
Qed.

Lemma process_crypto_query_branch w user_message a :
  crypto_branch_from w (add_intro a) (process_crypto_query w user_message a).
Proof. rewrite process_crypto_query_caught. apply crypto_try_branch. Qed.

Lemma conversation_has_assistant turns a :
  has_assistant (context a) = true →
  has_assistant (context (conversation turns a).1) = true.
Proof. apply has_assistant_prefix, conversation_prefix. Qed.

(** C6. The crypto branch adds the scripted introduction exactly when the
    context holds no message with role assistant: from a context without
    one, the turn ends as the branch entered on the context with the
    introduction appended; from a context with one, as the branch entered on
    the context as it is.  The branch always leaves an assistant message in
    the context and the context only grows, so every later entry into the
    crypto branch, after any run of turns, adds no introduction: in a
    conversation the introduction is added in at most one turn. *)
Theorem introduction_added_at_most_once w user_message turns a :
  context (add_intro a)
  = context a ++ (if has_assistant (context a) then []
                  else [Message "assistant" (Some intro_message)])
  ∧ (∃ replies,
       context (process_crypto_query w user_message a).1.2
       = context (add_intro a) ++ replies)
  ∧ has_assistant (context (process_crypto_query w user_message a).1.2) = true
  ∧ (intro_count turns a ≤ 1)%nat
  ∧ (has_assistant (context a) = true → intro_count turns a = 0%nat)
  ∧ (Forall (λ msg, role msg ≠ "assistant") (context a) →
     crypto_branch_from w
       (add_message_to_context a "assistant" (Some intro_message))
       (process_crypto_query w user_message a))
  ∧ (Exists is_assistant (context a) →
     crypto_branch_from w a (process_crypto_query w user_message a))
  ∧ Exists is_assistant (context (process_crypto_query w user_message a).1.2)
  ∧ (∀ w' user_message',
       crypto_branch_from w'
         (add_message_to_context
            (conversation turns (process_crypto_query w user_message a).1.2).1
            "user" (Some user_message'))
         (process_crypto_query w' user_message'
            (add_message_to_context
               (conversation turns (process_crypto_query w user_message a).1.2).1
               "user" (Some user_message')))).
Proof.
  split; [apply add_intro_context|].
  split.
  { rewrite process_crypto_query_caught. simpl.
    destruct (crypto_try_context w (add_intro a)) as (replies & -> & _). eauto. }
  split; [apply process_crypto_query_has_assistant|].
  split.
  { clear w user_message. revert a.
    induction turns as [|[user_input w] rest IH]; intros a; simpl; [lia|].
    destruct (classify_intent w user_input) as [classification|e] eqn:Hcl;
      [|specialize (IH (process_user_message w user_input a).1.2); lia].
    destruct (is_str _ "crypto") eqn:Hcrypto;
      [|specialize (IH (process_user_message w user_input a).1.2); lia].
    rewrite intro_step_size.
    rewrite intro_count_after_assistant.
    - destruct (has_assistant _); lia.
    - unfold process_user_message. rewrite Hcl, Hcrypto.
      apply process_crypto_query_has_assistant. }
  split; [apply intro_count_after_assistant|].
  split.
  { intros Hnone. rewrite <- (add_intro_first a Hnone).
    apply process_crypto_query_branch. }
  split.
  { intros Hsome. rewrite <- (add_intro_later a Hsome) at 1.
    apply process_crypto_query_branch. }
  split.
  { apply some_assistant_has_assistant, process_crypto_query_has_assistant. }
  intros w' user_message'.
  set (later := add_message_to_context _ "user" (Some user_message')).
  rewrite <- (add_intro_later later) at 1; [apply process_crypto_query_branch|].
  apply some_assistant_has_assistant. subst later. simpl.
  rewrite has_assistant_app.
  by rewrite conversation_has_assistant
    by apply process_crypto_query_has_assistant.
Qed.

(** C7, amended. An exception inside the [try] of the crypto or of the
    general handler is caught there: the handlers and the dispatcher return
    normally.  The general handler then leaves the agent as it was.  The
    crypto handler leaves the context as it was at the failure: the context
    on entry, the introduction when lines 143-148 added it, and the replies
    to the price calls handled before the failing one, one for each; the
    failing call appends nothing and the calls after it are left alone;
    nothing is appended when the completion call itself failed. *)
Theorem handler_failure_is_caught w user_message a :
  (process_crypto_query w user_message a).1.1 = Ok ()
  ∧ (process_general_query w a).1.1 = Ok ()
  ∧ (process_user_message w user_message a).1.1 = Ok ()
  ∧ (∀ e, (general_try w a).1 = Raise e →
          context (process_general_query w a).1.2 = context a)
  ∧ (∀ e, create w true (context (add_intro a)) = Raise e →
          context (process_crypto_query w user_message a).1.2 = context (add_intro a))
  ∧ (∀ e response,
        create w true (context (add_intro a)) = Ok response →
        (crypto_try w (add_intro a)).1.1 = Raise e →
        ∃ replies,
          context (process_crypto_query w user_message a).1.2
          = context (add_intro a) ++ replies
          ∧ Forall is_assistant replies
          ∧ (length replies < price_calls (tool_calls response))%nat)
  ∧ (∀ e, create w false (context a) = Raise e →
          process_general_query w a = (Ok (), a, []))
  ∧ (∀ e, create w true (context (add_intro a)) = Raise e →
          process_crypto_query w user_message a = (Ok (), add_intro a, []))
  ∧ (∀ e response,
        create w true (context (add_intro a)) = Ok response →
        (crypto_try w (add_intro a)).1.1 = Raise e →
        ∃ handled tc rest a1 sent1 a2 sent2 replies,
          tool_calls response = handled ++ tc :: rest
          ∧ function_name tc = "get_crypto_price"
          ∧ calls_completed w handled 0 (add_intro a) a1 sent1
          ∧ call_fails w tc (price_calls handled) a1 e a2 sent2
          ∧ process_crypto_query w user_message a = (Ok (), a2, sent1 ++ sent2)
          ∧ context a2 = context (add_intro a) ++ replies
          ∧ Forall is_assistant replies
          ∧ length replies = price_calls handled)
  ∧ (Forall (λ msg, role msg ≠ "assistant") (context a) →
     add_intro a = add_message_to_context a "assistant" (Some intro_message))
  ∧ (Exists is_assistant (context a) → add_intro a = a).
Proof.
  split; [by rewrite process_crypto_query_caught|].
  split; [by rewrite process_general_query_caught|].
  split; [apply process_user_message_returns|].
  split.
  { intros e He. rewrite process_general_query_caught. simpl.
    rewrite general_try_context. unfold general_try in He.
    destruct (create w false (context a)); [done|by rewrite app_nil_r]. }
  split.
  { intros e He. rewrite process_crypto_query_caught. simpl.
    unfold crypto_try. by rewrite He. }
  split.
  { intros e response Hresp Hraise. rewrite process_crypto_query_caught. simpl.
    unfold crypto_try in *. rewrite Hresp in *.
    destruct (tool_calls response) as [|tc rest]; [done|].
    destruct (tool_loop_context w (tc :: rest) 0%nat (add_intro a))
      as (replies & Hc & Hall & _ & Hlt).
    exists replies. eauto. }
  split.
  { intros e He. rewrite process_general_query_caught.
    unfold general_try. by rewrite He. }
  split.
  { intros e He. rewrite process_crypto_query_caught.
    unfold crypto_try. by rewrite He. }
  split; [|split; [apply add_intro_first|apply add_intro_later]].
  intros e response Hresp Hraise. rewrite process_crypto_query_caught.
  unfold crypto_try in *. rewrite Hresp in *.
  destruct (tool_calls response) as [|tc rest] eqn:Hcalls; [done|].
  destruct (tool_loop w (tc :: rest) 0 (add_intro a)) as [[r a2] sent] eqn:Hloop.
  simpl in Hraise. subst r.
  destruct (tool_loop_fails _ _ _ _ _ _ _ Hloop)
    as (handled & tc' & rest' & a1 & s1 & s2 & Hsplit & Hn & Hdone & Hfail & ->).
  destruct (calls_completed_context _ _ _ _ _ _ Hdone) as (replies & Hctx & Hall & Hlen).
  exists handled, tc', rest', a1, s1, a2, s2, replies.
  rewrite (call_fails_context _ _ _ _ _ _ _ Hfail). done.
Qed.

(** C8. Every operation leaves the context it found as a prefix of the
    context it returns: appending a message, the rate-limit check and the
    price lookup (which leave it as it is), the three handlers, the
    dispatcher, and any run of turns. *)
Theorem context_append_only w user_message crypto_symbol lookup now r c turns a :
  context a `prefix_of` context (add_message_to_context a r c)
  ∧ context (is_rate_limited now a).2 = context a
  ∧ context (get_crypto_price crypto_symbol lookup a).1.2 = context a
  ∧ context a `prefix_of` context (process_crypto_query w user_message a).1.2
  ∧ context a `prefix_of` context (process_language_change user_message a).1.2
  ∧ context a `prefix_of` context (process_general_query w a).1.2
  ∧ context a `prefix_of` context (process_user_message w user_message a).1.2
  ∧ context a `prefix_of` context (conversation turns a).1.
Proof.
  split; [by eexists|].
  split; [apply is_rate_limited_frame|].
  split; [apply get_crypto_price_frame|].
  split; [apply process_crypto_query_prefix|].
  split; [by eexists|].
  split; [apply process_general_query_prefix|].
  split; [|apply conversation_prefix].
  etrans; [|apply process_user_message_prefix]. by eexists.
Qed.

(* ------------------------------------------------------------------ *)
(** ** The sliding window *)

Lemma is_rate_limited_decision now a :
  (is_rate_limited now a).1
  = bool_decide (rate_limit_max_requests
                 ≤ length (filter (in_window now) (request_timestamps a)))%nat.
Proof.
  unfold is_rate_limited.
  destruct (Nat.leb_spec rate_limit_max_requests
              (length (filter (in_window now) (request_timestamps a)))) as [H|H];
    simpl; symmetry; [by apply bool_decide_eq_true|apply bool_decide_eq_false; lia].
Qed.

Lemma is_rate_limited_bounded now a :
  record_bounded a → record_bounded (is_rate_limited now a).2.
Proof.
  unfold record_bounded. intros Hb.
  pose proof (length_filter (in_window now) (request_timestamps a)) as Hf.
  rewrite is_rate_limited_record, is_rate_limited_decision, length_app.
  case_bool_decide; simpl; lia.
Qed.

(** X2. A full record frees a place as soon as one of its timestamps is 60 s
    old: a check at [now] is accepted when the record holds at most 5
    timestamps and one of them is at or before [now - 60]. *)
Theorem rate_limit_recovers now t a :
  record_bounded a →
  t ∈ request_timestamps a →
  t ≤ now - rate_limit_window →
  (is_rate_limited now a).1 = false
  ∧ (t ∉ request_timestamps (is_rate_limited now a).2)
  ∧ (now ∈ request_timestamps (is_rate_limited now a).2).
Proof.
  unfold record_bounded. intros Hb Hin Hold.
  assert (¬ in_window now t) as Hout by (unfold in_window; lia).
  pose proof (length_filter_lt (in_window now) _ _ Hin Hout) as Hlt.
  assert ((is_rate_limited now a).1 = false) as Hacc.
  { rewrite is_rate_limited_decision. apply bool_decide_eq_false. lia. }
  split; [done|]. rewrite is_rate_limited_record, Hacc. split.
  - rewrite elem_of_app, list_elem_of_filter, list_elem_of_singleton.
    intros [[? _]| ->]; [done|]. unfold rate_limit_window in Hold. lia.
  - rewrite elem_of_app, list_elem_of_singleton. by right.
Qed.

Lemma filter_length_mono {A} (P Q : A → Prop)
    `{!∀ x, Decision (P x), !∀ x, Decision (Q x)} (l : list A) :
  (∀ x, x ∈ l → P x → Q x) → (length (filter P l) ≤ length (filter Q l))%nat.
Proof.
  induction l as [|x l IH]; intros Himp; [done|].
  assert (length (filter P l) ≤ length (filter Q l))%nat as IH'.
  { apply IH. intros y Hy. apply Himp. by right. }
  rewrite !filter_cons.
  destruct (decide (P x)) as [HP|HP].
  - rewrite decide_True by (apply Himp; [by left|done]). simpl. lia.
  - destruct (decide (Q x)); simpl; lia.
Qed.

Lemma filter_length_sublist {A} (P : A → Prop) `{!∀ x, Decision (P x)}
    (l1 l2 : list A) :
  l1 `sublist_of` l2 → (length (filter P l1) ≤ length (filter P l2))%nat.
Proof.
  induction 1 as [|x l1 l2 _ IH|x l1 l2 _ IH]; [done| |].
  - rewrite !filter_cons. destruct (decide (P x)); simpl; lia.
  - rewrite filter_cons. destruct (decide (P x)); simpl; lia.
Qed.

(** The invariant of a run under a clock that never goes back: the record is
    the accepted readings still inside the window of the last reading, and
    no 60 s hold more than 5 accepted readings. *)
Lemma accepted_run_window clock : ∀ a acc last,
  request_timestamps a = filter (in_window last) acc →
  Forall (λ t, t ≤ last) acc →
  record_bounded a →
  (∀ e, (window_count e acc ≤ rate_limit_max_requests)%nat) →
  monotone_from last clock →
  ∀ e, (window_count e (acc ++ accepted_run clock a) ≤ rate_limit_max_requests)%nat.
Proof.
  induction clock as [|now rest IH]; intros a acc last Hrec Hle Hb Hwin Hmono e.
  { simpl. by rewrite app_nil_r. }
  destruct Hmono as [Hnow Hmono]. simpl.
  assert (filter (in_window now) (request_timestamps a) = filter (in_window now) acc)
    as Hkept.
  { rewrite Hrec. apply list_filter_filter_l. unfold in_window. intros x. lia. }
  assert (Forall (λ t, t ≤ now) acc) as Hle'.
  { eapply Forall_impl; [exact Hle|]. simpl. intros x. lia. }
  rewrite app_assoc. apply (IH _ _ now); [| | |clear e|done].
  - rewrite is_rate_limited_record, Hkept.
    destruct (is_rate_limited now a).1.
    + by rewrite !app_nil_r.
    + rewrite filter_app. f_equal. rewrite filter_cons_True, filter_nil; [done|].
      unfold in_window, rate_limit_window. lia.
  - destruct (is_rate_limited now a).1; [by rewrite app_nil_r|].
    apply Forall_app. split; [done|]. by repeat constructor.
  - by apply is_rate_limited_bounded.
  - intros e. destruct (is_rate_limited now a).1 eqn:Hacc; [by rewrite app_nil_r|].
    rewrite is_rate_limited_decision in Hacc. apply bool_decide_eq_false in Hacc.
    rewrite Hkept in Hacc. unfold window_count in *.
    rewrite filter_app, length_app.
    destruct (decide (e - rate_limit_window < now ∧ now ≤ e)) as [Hin|Hout].
    + rewrite filter_cons_True, filter_nil by done. simpl.
      enough (length (filter (λ t, (e - rate_limit_window < t ∧ t ≤ e)%Z) acc)
              ≤ length (filter (in_window now) acc))%nat by lia.
      apply filter_length_mono. unfold in_window. intros x _. lia.
    + rewrite filter_cons_False, filter_nil by done. simpl.
      specialize (Hwin e). lia.
Qed.

(** X3. Under a clock that never goes back, a run of rate-limit checks that
    starts with an empty record accepts at most 5 checks in any 60 s: for
    every instant [e], at most 5 accepted readings lie in [(e - 60, e]]. *)
Theorem rate_limit_sliding_window clock first a e :
  request_timestamps a = [] →
  monotone_from first clock →
  (window_count e (accepted_run clock a) ≤ rate_limit_max_requests)%nat.
Proof.
  intros Hempty Hmono.
  apply (accepted_run_window clock a [] first); try done.
  - unfold record_bounded. rewrite Hempty. simpl. lia.
  - intros e'. unfold window_count. simpl. lia.
Qed.

Lemma is_rate_limited_ext now a b :
  request_timestamps a = request_timestamps b →
  (is_rate_limited now a).1 = (is_rate_limited now b).1
  ∧ request_timestamps (is_rate_limited now a).2
    = request_timestamps (is_rate_limited now b).2.
Proof.
  intros Heq. rewrite !is_rate_limited_record, !is_rate_limited_decision, Heq. done.
Qed.

Lemma accepted_run_ext clock : ∀ a b,
  request_timestamps a = request_timestamps b →
  accepted_run clock a = accepted_run clock b.
Proof.
  induction clock as [|now rest IH]; intros a b Heq; simpl; [done|].
  destruct (is_rate_limited_ext now a b Heq) as [-> Hrec].
  by rewrite (IH _ _ Hrec).
Qed.

Lemma get_crypto_price_rejected_sends_nothing crypto_symbol w a :
  (is_rate_limited (clock_limit w) a).1 = true →
  (get_crypto_price crypto_symbol w a).2 = [].
Proof. intros H. by rewrite get_crypto_price_rejected. Qed.

Lemma request_times_accepted lookups : ∀ a,
  request_times lookups a `sublist_of` accepted_run (clock_limit <$> lookups.*2) a.
Proof.
  induction lookups as [|[crypto_symbol w] rest IH]; intros a; simpl; [done|].
  apply sublist_app.
  - destruct (is_rate_limited (clock_limit w) a).1 eqn:Hacc.
    + by rewrite get_crypto_price_rejected_sends_nothing.
    + destruct (get_crypto_price crypto_symbol w a).2; [apply sublist_nil_l|done].
  - rewrite (accepted_run_ext _ (is_rate_limited (clock_limit w) a).2
               (get_crypto_price crypto_symbol w a).1.2); [apply IH|].
    by destruct (get_crypto_price_frame crypto_symbol w a) as [_ ->].
Qed.

(** X4. Under a rate-limit clock that never goes back, price lookups that
    start with an empty record send at most 5 requests to the API in any
    60 s: for every instant [e], at most 5 of the lookups that sent a request
    read the rate-limit clock in [(e - 60, e]]. *)
Theorem price_requests_sliding_window lookups first a e :
  request_timestamps a = [] →
  monotone_from first (clock_limit <$> lookups.*2) →
  (window_count e (request_times lookups a) ≤ rate_limit_max_requests)%nat.
Proof.
  intros Hempty Hmono.
  etrans; [apply filter_length_sublist, request_times_accepted|].
  apply (accepted_run_window _ a [] first); try done.
  - unfold record_bounded. rewrite Hempty. simpl. lia.
  - intros e'. unfold window_count. simpl. lia.
Qed.

(* ------------------------------------------------------------------ *)
(** ** The price cache *)

Lemma fetch_price_result crypto_symbol key now answer a :
  (fetch_price crypto_symbol key now answer a).1 = Ok not_available_message
  ∨ (∃ e, (fetch_price crypto_symbol key now answer a).1 = Raise e)
  ∨ ∃ k price_value,
      key = Some k ∧ truthy price_value = true
      ∧ (fetch_price crypto_symbol key now answer a).1
        = Ok (price_message crypto_symbol price_value).
Proof.
  unfold fetch_price. repeat case_match; simplify_eq/=; eauto 10.
Qed.

(** X5. A lookup leaves every cache entry other than that of its symbol as
    it was, and removes none: the keys of the cache only grow. *)
Theorem price_lookup_cache_frame crypto_symbol w a k :
  (crypto_symbol ≠ JStr k →
     cache (get_crypto_price crypto_symbol w a).1.2 !! k = cache a !! k)
  ∧ (is_Some (cache a !! k) →
     is_Some (cache (get_crypto_price crypto_symbol w a).1.2 !! k)).
Proof.
  destruct (get_crypto_price_cache crypto_symbol w a)
    as [->|(k' & p & -> & _ & _ & _ & ->)]; [done|].
  split.
  - intros Hne. rewrite lookup_insert_ne; [done|congruence].
  - intros Hsome. destruct (decide (k' = k)) as [->|Hne].
    + rewrite lookup_insert_eq. eauto.
    + by rewrite lookup_insert_ne.
Qed.

Lemma get_crypto_price_formatted crypto_symbol w a :
  cache_formatted (cache a) →
  cache_formatted (cache (get_crypto_price crypto_symbol w a).1.2).
Proof.
  intros Hwf.
  destruct (get_crypto_price_cache crypto_symbol w a)
    as [->|(k' & p & -> & Hp & _ & _ & ->)]; [done|].
  intros k e. destruct (decide (k' = k)) as [->|Hne].
  - rewrite lookup_insert_eq. intros [= <-]. eauto.
  - rewrite lookup_insert_ne by done. apply Hwf.
Qed.

Lemma get_crypto_price_bounded crypto_symbol w a :
  record_bounded a → record_bounded (get_crypto_price crypto_symbol w a).1.2.
Proof.
  unfold record_bounded. intros Hb.
  destruct (get_crypto_price_frame crypto_symbol w a) as [_ ->].
  by apply is_rate_limited_bounded.
Qed.

(** X7. A cache entry that is 60 s old or older is not used: an accepted
    lookup sends a request; when the request fails the answer is the
    failed-to-fetch message and the old entry stays in the cache. *)
Theorem stale_entry_is_fetched_again k e w a :
  (is_rate_limited (clock_limit w) a).1 = false →
  cache a !! k = Some e →
  60 ≤ clock_cache w - timestamp e →
  (get_crypto_price (JStr k) w a).2 = [JStr k]
  ∧ (http_failure (api w) →
     (get_crypto_price (JStr k) w a).1.1 = Ok failed_message
     ∧ cache (get_crypto_price (JStr k) w a).1.2 !! k = Some e).
Proof.
  intros Hacc He Hold.
  assert (cache_hit (clock_cache w) (cache a !! k) = None) as Hmiss.
  { rewrite He. simpl. by rewrite decide_False by lia. }
  rewrite get_crypto_price_fetches by done.
  pose proof (is_rate_limited_frame (clock_limit w) a) as [_ Hc].
  split.
  - by destruct (fetch_price _ _ _ _ _) as [[text|[]] a2].
  - intros Hfail. rewrite fetch_price_failure by done. simpl. by rewrite Hc.
Qed.

(** X8. On a cache whose texts are price messages, every text that a lookup
    returns is the rate-limit message, the failed-to-fetch message, the
    price-not-available message, or the price message of its [str] symbol. *)
Theorem price_lookup_answers crypto_symbol w a text :
  cache_formatted (cache a) →
  (get_crypto_price crypto_symbol w a).1.1 = Ok text →
  text = rate_limit_message ∨ text = failed_message ∨ text = not_available_message
  ∨ ∃ k price_value, crypto_symbol = JStr k ∧ truthy price_value = true
                     ∧ text = price_message (JStr k) price_value.
Proof.
  intros Hwf. unfold get_crypto_price.
  pose proof (is_rate_limited_frame (clock_limit w) a) as [_ Hc].
  destruct (is_rate_limited (clock_limit w) a) as [[] a1]; simpl in *;
    [intros [= <-]; by left|].
  destruct (str_key crypto_symbol) as [key|e] eqn:Hkey; [|done].
  destruct (cache_hit _ _) as [cached|] eqn:Hhit.
  - intros [= <-]. do 3 right.
    destruct key as [k|]; [|done]. simpl in Hhit. rewrite Hc in Hhit.
    destruct (cache a !! k) as [entry|] eqn:Hentry; [|done].
    simpl in Hhit. case_decide; [|done]. injection Hhit as <-.
    destruct (Hwf k entry Hentry) as (p & Hp & Htext).
    exists k, p. by destruct crypto_symbol; simplify_eq/=.
  - destruct (fetch_price_result crypto_symbol key (clock_cache w) (api w) a1)
      as [Hr|[[e Hr]|(k & p & -> & Hp & Hr)]];
      destruct (fetch_price _ _ _ _ _) as [r a2]; simpl in Hr; subst r.
    + intros [= <-]. by right; right; left.
    + destruct e; simpl; try done. intros [= <-]. by right; left.
    + intros [= <-]. do 3 right. exists k, p.
      by destruct crypto_symbol; simplify_eq/=.
Qed.


(** X10. For a [str] symbol the lookup returns a text, and raises nothing,
    whenever [requests.get] and [response.json()] leave with no exception
    other than a [RequestException] and every parsed body that arrives
    without a 4xx or 5xx status is an object in which the entry of the
    symbol, if any, is an object. *)
Theorem price_lookup_returns_on_object_bodies k w a :
  (∀ e, api w = GetRaises e → e = RequestException) →
  (∀ status_code e,
      api w = JsonRaises status_code e →
      raise_for_status status_code = false → e = RequestException) →
  (∀ status_code data,
      api w = Response status_code (Some data) →
      raise_for_status status_code = false →
      ∃ items, data = JObj items ∧ entry_is_object k items) →
  ∃ text, (get_crypto_price (JStr k) w a).1.1 = Ok text.
Proof.
  intros Hget Hjson Hshape. unfold get_crypto_price.
  destruct (is_rate_limited (clock_limit w) a) as [[] a1]; simpl; [eauto|].
  destruct (cache_hit _ _); [eauto|].
  unfold fetch_price.
  destruct (api w) as [|status_code [data|]|e|status_code e] eqn:Hapi; simpl;
    [eauto| | | |].
  - destruct (raise_for_status status_code) eqn:Hstatus; simpl; [eauto|].
    destruct (Hshape _ _ eq_refl Hstatus) as (items & -> & Hobj).
    unfold entry_is_object in Hobj.
    destruct (dict_get k items) as [[]|]; simpl; try done;
      repeat case_match; simplify_eq/=; eauto.
  - destruct (raise_for_status status_code); simpl; eauto.
  - rewrite (Hget e eq_refl). simpl. eauto.
  - destruct (raise_for_status status_code) eqn:Hstatus; simpl; [eauto|].
    rewrite (Hjson _ e eq_refl Hstatus). simpl. eauto.
Qed.

(* ------------------------------------------------------------------ *)
(** ** Invariants of a conversation *)

Section Invariant.

(** A property of the agent that adding a message and a price lookup keep. *)
Variable P : agent → Prop.
Hypothesis P_message : ∀ a r c, P a → P (add_message_to_context a r c).
Hypothesis P_lookup : ∀ crypto_symbol w a,
  P a → P (get_crypto_price crypto_symbol w a).1.2.

Lemma tool_loop_keeps w calls : ∀ n a, P a → P (tool_loop w calls n a).1.2.
Proof.
  induction calls as [|tc rest IH]; intros n a Ha; simpl; [done|].
  destruct (String.eqb (function_name tc) "get_crypto_price"); [|by apply IH].
  destruct (json_loads (function_arguments tc)) as [arguments|]; [|done].
  destruct (subscript arguments "crypto_symbol") as [crypto_symbol|e0]; [|done].
  pose proof (P_lookup crypto_symbol (lookups w n) a Ha) as Hl.
  destruct (get_crypto_price crypto_symbol (lookups w n) a)
    as [[[price_info|e1] a1] sent]; simpl in *; [|done].
  specialize (IH (S n) (add_message_to_context a1 "assistant" (Some price_info))
                (P_message _ _ _ Hl)).
  by destruct (tool_loop w rest (S n) _) as [[r a3] sent'].
Qed.

Lemma add_intro_keeps a : P a → P (add_intro a).
Proof. unfold add_intro. destruct (has_assistant (context a)); auto. Qed.

Lemma process_crypto_query_keeps w user_message a :
  P a → P (process_crypto_query w user_message a).1.2.
Proof.
  intros Ha. rewrite process_crypto_query_caught. simpl.
  apply add_intro_keeps in Ha. unfold crypto_try.
  destruct (create w true (context (add_intro a))) as [response|e]; [|done].
  destruct (tool_calls response) as [|tc rest]; [by apply P_message|].
  by apply tool_loop_keeps.
Qed.

Lemma process_user_message_keeps w user_message a :
  P a → P (process_user_message w user_message a).1.2.
Proof.
  intros Ha. unfold process_user_message.
  apply (P_message a "user" (Some user_message)) in Ha.
  destruct (classify_intent w user_message) as [classification|e]; [|done].
  destruct (is_str _ "crypto"); [by apply process_crypto_query_keeps|].
  destruct (is_str _ "language_change"); [by apply P_message|].
  rewrite process_general_query_caught. unfold general_try. simpl.
  destruct (create w false _); simpl; [by apply P_message|done].
Qed.

Lemma conversation_keeps turns : ∀ a, P a → P (conversation turns a).1.
Proof.
  induction turns as [|[user_input w] rest IH]; intros a Ha; simpl; [done|].
  pose proof (process_user_message_keeps w user_input a Ha) as H1.
  destruct (process_user_message w user_input a) as [[r a1] sent]; simpl in *.
  specialize (IH a1 H1). by destruct (conversation rest a1).
Qed.

End Invariant.

(** X1. The record of the rate limiter never holds more than 5 timestamps:
    a record within that bound stays within it through a rate-limit check, a
    price lookup, a turn and a whole conversation. *)
Theorem record_stays_bounded now crypto_symbol lookup w user_message turns a :
  record_bounded a →
  record_bounded (is_rate_limited now a).2
  ∧ record_bounded (get_crypto_price crypto_symbol lookup a).1.2
  ∧ record_bounded (process_user_message w user_message a).1.2
  ∧ record_bounded (conversation turns a).1.
Proof.
  intros Hb.
  split; [by apply is_rate_limited_bounded|].
  split; [by apply get_crypto_price_bounded|].
  split.
  - apply process_user_message_keeps; [done| |done].
    intros. by apply get_crypto_price_bounded.
  - apply conversation_keeps; [done| |done].
    intros. by apply get_crypto_price_bounded.
Qed.

(** X6. The cache only ever holds price messages: when every cached text is
    the price message of its key for a truthy price, this is still so after
    a price lookup, a turn and a whole conversation; none of the fixed
    failure messages is ever stored. *)
Theorem cache_holds_price_messages crypto_symbol lookup w user_message turns a :
  cache_formatted (cache a) →
  cache_formatted (cache (get_crypto_price crypto_symbol lookup a).1.2)
  ∧ cache_formatted (cache (process_user_message w user_message a).1.2)
  ∧ cache_formatted (cache (conversation turns a).1).
Proof.
  intros Hwf.
  split; [by apply get_crypto_price_formatted|].
  split.
  - apply (process_user_message_keeps (λ a, cache_formatted (cache a)));
      [done| |done].
    intros. by apply get_crypto_price_formatted.
  - apply (conversation_keeps (λ a, cache_formatted (cache a))); [done| |done].
    intros. by apply get_crypto_price_formatted.
Qed.

(** X11. A turn whose intent is not [crypto] makes no price lookup: it sends
    no request and leaves the cache and the record of the rate limiter as
    they were; a [language_change] turn appends the user message and the
    fixed acknowledgment, whatever the message says. *)
Theorem other_intents_make_no_lookup w user_message v a :
  classify_intent w user_message = Ok [("intent", v)] →
  is_str v "crypto" = false →
  (process_user_message w user_message a).2 = []
  ∧ cache (process_user_message w user_message a).1.2 = cache a
  ∧ request_timestamps (process_user_message w user_message a).1.2
    = request_timestamps a
  ∧ (is_str v "language_change" = true →
     context (process_user_message w user_message a).1.2
     = context a ++ [Message "user" (Some user_message);
                     Message "assistant" (Some language_change_message)]).
Proof.
  intros Hv Hc. unfold process_user_message. rewrite Hv. simpl. rewrite Hc.
  destruct (is_str v "language_change"); simpl.
  - repeat split; try done. intros _. by rewrite <- app_assoc.
  - rewrite process_general_query_caught. unfold general_try. simpl.
    by destruct (create w false _).
Qed.

(* ------------------------------------------------------------------ *)
(** ** The fenced block *)

Lemma strip_prefix_Some p : ∀ s r, strip_prefix p s = Some r → s = p +:+ r.
Proof.
  induction p as [|a p IH]; intros s r; simpl; [by intros [= ->]|].
  destruct s as [|b s]; [done|].
  destruct (Ascii.eqb_spec a b) as [->|]; [|done].
  intros H. by rewrite (IH _ _ H).
Qed.

Lemma strip_prefix_app p r : strip_prefix p (p +:+ r) = Some r.
Proof.
  induction p as [|a p IH]; simpl; [done|]. by rewrite Ascii.eqb_refl.
Qed.

Lemma until_close_unfold s :
  until_close s
  = match strip_prefix fence_close s with
    | Some _ => Some EmptyString
    | None =>
        match s with
        | EmptyString => None
        | String c s' => String c <$> until_close s'
        end
    end.
Proof. by destruct s. Qed.

Lemma re_search_unfold s :
  re_search s
  = match
      match strip_prefix fence_open s with
      | Some rest => until_close rest
      | None => None
      end
    with
    | Some inside => Some ("{" +:+ inside +:+ "}")
    | None =>
        match s with
        | EmptyString => None
        | String _ s' => re_search s'
        end
    end.
Proof. by destruct s. Qed.

Lemma until_close_Some s : ∀ inside,
  until_close s = Some inside → ∃ post, s = inside +:+ fence_close +:+ post.
Proof.
  induction s as [|c s IH]; intros inside; rewrite until_close_unfold.
  - intros H. by vm_compute in H.
  - destruct (strip_prefix fence_close (String c s)) as [post|] eqn:E.
    + intros [= <-]. exists post. exact (strip_prefix_Some _ _ _ E).
    + destruct (until_close s) as [inside'|]; [|done].
      intros [= <-]. destruct (IH inside' eq_refl) as [post ->]. by exists post.
Qed.

Lemma until_close_finds inside : ∀ post,
  is_Some (until_close (inside +:+ fence_close +:+ post)).
Proof.
  induction inside as [|c inside IH]; intros post; rewrite until_close_unfold.
  - change ("" +:+ fence_close +:+ post) with (fence_close +:+ post).
    rewrite strip_prefix_app. eauto.
  - destruct (strip_prefix fence_close _); [eauto|].
    change (String c inside +:+ fence_close +:+ post)
      with (String c (inside +:+ fence_close +:+ post)).
    destruct (IH post) as [x ->]. simpl. eauto.
Qed.

(** X12. What [re_search] returns is in the text: the group is an opening
    brace, some text and a closing brace, and the text reads as something,
    the opening fence with the brace, the inside of the group, the brace
    with the closing fence, and something. *)
Theorem re_search_sound s : ∀ group1,
  re_search s = Some group1 →
  ∃ before inside after,
    group1 = "{" +:+ inside +:+ "}"
    ∧ s = before +:+ fence_open +:+ inside +:+ fence_close +:+ after.
Proof.
  induction s as [|c s IH]; intros group1; rewrite re_search_unfold.
  - intros H. by vm_compute in H.
  - destruct (strip_prefix fence_open (String c s)) as [rest|] eqn:Hopen.
    + destruct (until_close rest) as [inside|] eqn:Hclose.
      * intros [= <-]. apply strip_prefix_Some in Hopen.
        destruct (until_close_Some _ _ Hclose) as [post ->].
        exists "", inside, post. by rewrite Hopen.
      * intros H. destruct (IH _ H) as (before & inside & post & -> & ->).
        by exists (String c before), inside, post.
    + intros H. destruct (IH _ H) as (before & inside & post & -> & ->).
      by exists (String c before), inside, post.
Qed.

(** X13. [re_search] finds a group in every text that holds an opening
    fence with a brace and, somewhere after it, a brace with the closing
    fence. *)
Theorem re_search_complete before inside after :
  is_Some (re_search (before +:+ fence_open +:+ inside +:+ fence_close +:+ after)).
Proof.
  induction before as [|c before IH]; rewrite re_search_unfold.
  - change ("" +:+ fence_open +:+ inside +:+ fence_close +:+ after)
      with (fence_open +:+ inside +:+ fence_close +:+ after).
    rewrite strip_prefix_app.
    destruct (until_close_finds inside after) as [x ->]. eauto.
  - destruct (match strip_prefix fence_open _ with Some _ => _ | None => _ end);
      [eauto|].
    change (String c before +:+ fence_open +:+ inside +:+ fence_close +:+ after)
      with (String c (before +:+ fence_open +:+ inside +:+ fence_close +:+ after)).
    exact IH.
Qed.

(* ------------------------------------------------------------------ *)
(** ** The crypto branch and the turns *)

Lemma tool_loop_no_price_call w calls : ∀ n a,
  price_calls calls = 0%nat → tool_loop w calls n a = (Ok (), a, []).
Proof.
  induction calls as [|tc rest IH]; intros n a; simpl; [done|].
  destruct (String.eqb (function_name tc) "get_crypto_price"); [done|].
  apply IH.
Qed.

(** X14. A response of the crypto branch without a [get_crypto_price] call
    makes no price lookup: no request, cache and record untouched.  When it
    has no tool call at all its content is appended as the assistant's
    reply; when it only has calls of other tools nothing is appended. *)
Theorem crypto_reply_without_price_call w response a :
  create w true (context a) = Ok response →
  price_calls (tool_calls response) = 0%nat →
  crypto_try w a
  = (Ok (),
     match tool_calls response with
     | [] => add_message_to_context a "assistant" (message_content response)
     | _ => a
     end, []).
Proof.
  intros Hresp Hnone. unfold crypto_try. rewrite Hresp.
  destruct (tool_calls response) as [|tc rest]; [done|].
  by apply tool_loop_no_price_call.
Qed.

(** X15. A [get_crypto_price] call whose arguments do not parse, or parse to
    something without the key [crypto_symbol], ends the loop over the tool
    calls at once: the exception is raised before the rate limiter is asked,
    the agent is as it was, no request is sent, and the calls after it are
    not looked at. *)
Theorem malformed_tool_call_ends_loop w tc rest n a :
  function_name tc = "get_crypto_price" →
  (∀ arguments crypto_symbol,
      json_loads (function_arguments tc) = Some arguments →
      subscript arguments "crypto_symbol" ≠ Ok crypto_symbol) →
  ∃ e, tool_loop w (tc :: rest) n a = (Raise e, a, [])
       ∧ (e = JSONDecodeError ∨ e = KeyError ∨ e = TypeError).
Proof.
  intros Hname Hbad. simpl. rewrite Hname. simpl.
  destruct (json_loads (function_arguments tc)) as [arguments|] eqn:Hloads;
    [|eauto].
  specialize (Hbad arguments).
  destruct (subscript arguments "crypto_symbol") as [crypto_symbol|e] eqn:Hsub.
  - by destruct (Hbad crypto_symbol).
  - exists e. split; [done|]. unfold subscript in Hsub.
    destruct arguments; simplify_eq/=; auto.
    destruct (dict_get "crypto_symbol" items); simplify_eq/=; auto.
Qed.

Lemma tool_loop_requests w calls : ∀ n a,
  (length (tool_loop w calls n a).2 ≤ price_calls calls)%nat.
Proof.
  induction calls as [|tc rest IH]; intros n a; simpl; [done|].
  destruct (String.eqb (function_name tc) "get_crypto_price"); [|apply IH].
  destruct (json_loads (function_arguments tc)) as [arguments|]; simpl; [|lia].
  destruct (subscript arguments "crypto_symbol") as [crypto_symbol|e0]; simpl; [|lia].
  pose proof (get_crypto_price_sends_at_most_once crypto_symbol (lookups w n) a) as H1.
  destruct (get_crypto_price crypto_symbol (lookups w n) a)
    as [[[price_info|e1] a1] sent]; simpl in *; [|lia].
  specialize (IH (S n) (add_message_to_context a1 "assistant" (Some price_info))).
  destruct (tool_loop w rest (S n) _) as [[r a3] sent']; simpl in *.
  rewrite length_app. lia.
Qed.

(** X16. The crypto branch sends at most one request to the price API for
    each [get_crypto_price] call of the response, and none when the
    completion call raises. *)
Theorem crypto_branch_requests w user_message a :
  (length (process_crypto_query w user_message a).2
   ≤ match create w true (context (add_intro a)) with
     | Ok response => price_calls (tool_calls response)
     | Raise _ => 0
     end)%nat.
Proof.
  rewrite process_crypto_query_caught. simpl. unfold crypto_try.
  destruct (create w true (context (add_intro a))) as [response|e]; [|simpl; lia].
  destruct (tool_calls response) as [|tc rest] eqn:Hcalls; [simpl; lia|].
  apply (tool_loop_requests w (tc :: rest)).
Qed.

Lemma process_user_message_shape w user_message a :
  ∃ replies,
    context (process_user_message w user_message a).1.2
    = context a ++ Message "user" (Some user_message) :: replies
    ∧ Forall is_assistant replies.
Proof.
  unfold process_user_message.
  destruct (classify_intent_returns w user_message) as [v ->]. simpl.
  destruct (is_str v "crypto").
  - rewrite process_crypto_query_caught. simpl.
    destruct (crypto_try_context w
                (add_intro (add_message_to_context a "user" (Some user_message))))
      as (replies & -> & Hall).
    rewrite add_intro_context. simpl.
    eexists. rewrite <- !app_assoc. split; [done|].
    apply Forall_app. split; [|done].
    destruct (has_assistant _); by repeat constructor.
  - destruct (is_str v "language_change"); simpl.
    + eexists. rewrite <- app_assoc. split; [done|]. by repeat constructor.
    + rewrite process_general_query_caught. simpl. rewrite general_try_context.
      simpl. eexists. rewrite <- app_assoc. split; [done|].
      destruct (create w false _); by repeat constructor.
Qed.

(** X17. A turn appends the user's message first and after it assistant
    messages only. *)
Theorem turn_appends_user_then_assistant w user_message a :
  ∃ replies,
    context (process_user_message w user_message a).1.2
    = context a ++ Message "user" (Some user_message) :: replies
    ∧ Forall is_assistant replies.
Proof. apply process_user_message_shape. Qed.

Lemma filter_user_assistant (replies : list message) :
  Forall is_assistant replies → filter is_user replies = [].
Proof.
  induction 1 as [|m l Hm _ IH]; [done|].
  rewrite filter_cons_False; [done|].
  unfold is_user, is_assistant in *. by rewrite Hm.
Qed.

(** X18. After a conversation the context holds one user message more for
    each turn, in the order of the turns, and no other message than user and
    assistant messages is ever added: the user messages of the context are
    those it had followed by the lines of the turns. *)
Theorem conversation_user_messages turns : ∀ a,
  filter is_user (context (conversation turns a).1)
  = filter is_user (context a)
    ++ ((λ turn, Message "user" (Some turn.1)) <$> turns)
  ∧ (Forall (λ m, is_user m ∨ is_assistant m) (context a) →
     Forall (λ m, is_user m ∨ is_assistant m) (context (conversation turns a).1)).
Proof.
  induction turns as [|[user_input w] rest IH]; intros a; simpl.
  { by rewrite app_nil_r. }
  destruct (process_user_message_shape w user_input a) as (replies & Hctx & Hall).
  destruct (process_user_message w user_input a) as [[r a1] sent]; simpl in *.
  destruct (IH a1) as [IH1 IH2].
  destruct (conversation rest a1) as [a2 sent']; simpl in *.
  split.
  - rewrite IH1, Hctx, filter_app, filter_cons_True by done.
    rewrite (filter_user_assistant _ Hall), <- app_assoc. done.
  - intros Hroles. apply IH2. rewrite Hctx. apply Forall_app. split; [done|].
    constructor; [by left|].
    eapply Forall_impl; [exact Hall|]. simpl. auto.
Qed.

(* ------------------------------------------------------------------ *)
(** ** The interactive loop *)

Lemma ascii_lower_letter (c l u : ascii) :
  nat_of_ascii u = (nat_of_ascii l - 32)%nat →
  (97 ≤ nat_of_ascii l ≤ 122)%nat →
  ascii_lower c = l ↔ c = l ∨ c = u.
Proof.
  intros Hu Hl. unfold ascii_lower.
  destruct ((65 <=? nat_of_ascii c) && (nat_of_ascii c <=? 90))%nat eqn:Hup.
  - apply andb_true_iff in Hup as [H1%Nat.leb_le H2%Nat.leb_le]. split.
    + intros Hc. right.
      apply (f_equal nat_of_ascii) in Hc.
      rewrite nat_ascii_embedding in Hc by lia.
      rewrite <- (ascii_nat_embedding c), <- (ascii_nat_embedding u).
      f_equal. lia.
    + intros [->| ->]; [lia|].
      rewrite Hu. replace (nat_of_ascii l - 32 + 32)%nat with (nat_of_ascii l) by lia.
      apply ascii_nat_embedding.
  - split; [by left|]. intros [->| ->]; [done|].
    apply andb_false_iff in Hup as [H%Nat.leb_gt|H%Nat.leb_gt]; lia.
Qed.

(** X19. The loop takes a line for [exit] exactly when it has four
    characters that spell [exit] in upper or lower case, each on its own. *)
Theorem exit_in_any_case user_input :
  is_exit user_input = true
  ↔ ∃ c1 c2 c3 c4,
      user_input = String c1 (String c2 (String c3 (String c4 EmptyString)))
      ∧ (c1 = "e" ∨ c1 = "E")%char ∧ (c2 = "x" ∨ c2 = "X")%char
      ∧ (c3 = "i" ∨ c3 = "I")%char ∧ (c4 = "t" ∨ c4 = "T")%char.
Proof.
  unfold is_exit. rewrite String.eqb_eq. split.
  - destruct user_input as [|c1 [|c2 [|c3 [|c4 [|c5 rest]]]]]; simpl; try done.
    intros [= H1 H2 H3 H4]. exists c1, c2, c3, c4. split; [done|].
    apply (ascii_lower_letter c1 "e" "E") in H1; [|done|by split; apply Nat.leb_le].
    apply (ascii_lower_letter c2 "x" "X") in H2; [|done|by split; apply Nat.leb_le].
    apply (ascii_lower_letter c3 "i" "I") in H3; [|done|by split; apply Nat.leb_le].
    apply (ascii_lower_letter c4 "t" "T") in H4; [|done|by split; apply Nat.leb_le].
    done.
  - intros (c1 & c2 & c3 & c4 & -> & H1 & H2 & H3 & H4). simpl.
    apply (ascii_lower_letter c1 "e" "E") in H1; [|done|by split; apply Nat.leb_le].
    apply (ascii_lower_letter c2 "x" "X") in H2; [|done|by split; apply Nat.leb_le].
    apply (ascii_lower_letter c3 "i" "I") in H3; [|done|by split; apply Nat.leb_le].
    apply (ascii_lower_letter c4 "t" "T") in H4; [|done|by split; apply Nat.leb_le].
    by rewrite H1, H2, H3, H4.
Qed.

(** X20. The loop processes the lines before the first [exit] or interrupt
    as turns, in order, and nothing after it: the stopping line itself is
    not added to the context, and what follows it changes nothing. *)
Theorem loop_stops_at_exit before stop after a :
  (stop = Interrupt ∨ ∃ user_input w, stop = Line user_input w
                                      ∧ is_exit user_input = true) →
  start_conversation (before ++ stop :: after) a = start_conversation before a
  ∧ start_conversation before a = conversation (processed_turns before) a.
Proof.
  intros Hstop. split.
  - revert a. induction before as [|[user_input w|] before IH]; intros a; simpl.
    + by destruct Hstop as [->|(user_input & w & -> & ->)].
    + destruct (is_exit user_input); [done|].
      destruct (process_user_message w user_input a) as [[r a1] sent].
      by rewrite IH.
    + done.
  - clear Hstop. revert a.
    induction before as [|[user_input w|] before IH]; intros a; simpl; [done| |done].
    destruct (is_exit user_input); [done|]. simpl.
    destruct (process_user_message w user_input a) as [[r a1] sent].
    by rewrite IH.
Qed.

(* ------------------------------------------------------------------ *)
(** ** A price turn from end to end *)

Lemma has_assistant_after_user ctx user_message :
  has_assistant (ctx ++ [Message "user" (Some user_message)]) = has_assistant ctx.
Proof. rewrite has_assistant_app. simpl. by rewrite orb_false_r. Qed.

(** X21. A turn classified as [crypto], in which the model asks for one
    price lookup with a [str] symbol, the rate limiter accepts it, the cache
    does not answer, and the API answers without a 4xx or 5xx status with an
    object that holds a truthy [usd] price for the symbol: the context gains
    the user's message, the introduction if no assistant message was there,
    and the price message as the assistant's reply; one request is sent; the
    price message is cached under the symbol with the clock reading of the
    cache check; and the rate-limit clock reading is recorded. *)
Theorem crypto_turn_reports_price w user_message a content tc arguments k
    status_code data fields price_value :
  classify_intent w user_message = Ok [("intent", JStr "crypto")] →
  create w true
    (context (add_intro (add_message_to_context a "user" (Some user_message))))
  = Ok (Completion [tc] content) →
  function_name tc = "get_crypto_price" →
  json_loads (function_arguments tc) = Some (JObj arguments) →
  dict_get "crypto_symbol" arguments = Some (JStr k) →
  (is_rate_limited (clock_limit (lookups w 0)) a).1 = false →
  cache_hit (clock_cache (lookups w 0)) (cache a !! k) = None →
  api (lookups w 0) = Response status_code (Some (JObj data)) →
  raise_for_status status_code = false →
  dict_get k data = Some (JObj fields) →
  dict_get "usd" fields = Some price_value →
  truthy price_value = true →
  let out := process_user_message w user_message a in
  out.1.1 = Ok ()
  ∧ context out.1.2
    = context a
      ++ [Message "user" (Some user_message)]
      ++ (if has_assistant (context a) then []
          else [Message "assistant" (Some intro_message)])
      ++ [Message "assistant" (Some (price_message (JStr k) price_value))]
  ∧ out.2 = [JStr k]
  ∧ cache out.1.2
    = <[k := CacheEntry (price_message (JStr k) price_value)
                        (clock_cache (lookups w 0))]> (cache a)
  ∧ request_timestamps out.1.2
    = filter (in_window (clock_limit (lookups w 0))) (request_timestamps a)
      ++ [clock_limit (lookups w 0)].
Proof.
  intros Hintent Hcreate Hname Hloads Hsym Hacc Hmiss Hapi Hstatus Hentry Husd
    Htruthy out. subst out.
  unfold process_user_message. rewrite Hintent. simpl.
  rewrite process_crypto_query_caught. simpl.
  set (a0 := add_message_to_context a "user" (Some user_message)) in *.
  assert (cache (add_intro a0) = cache a
          ∧ request_timestamps (add_intro a0) = request_timestamps a) as [Hc Hr].
  { unfold add_intro. by destruct (has_assistant (context a0)). }
  destruct (is_rate_limited_ext (clock_limit (lookups w 0)) (add_intro a0) a Hr)
    as [Hacc' Hrec'].
  rewrite Hacc in Hacc'.
  pose proof (is_rate_limited_frame (clock_limit (lookups w 0)) (add_intro a0))
    as [Hctx1 Hc1].
  unfold crypto_try. rewrite Hcreate. simpl.
  rewrite Hname. simpl. rewrite Hloads. simpl. rewrite Hsym.
  rewrite get_crypto_price_fetches by (by rewrite ?Hc).
  unfold fetch_price. rewrite Hapi, Hstatus, Hentry. simpl.
  rewrite Husd. simpl. rewrite Htruthy. simpl.
  rewrite Hctx1, Hc1, Hc, Hrec', is_rate_limited_record, Hacc.
  rewrite add_intro_context. subst a0. simpl.
  rewrite has_assistant_after_user, <- !app_assoc. done.
Qed.

End Methods.

(* ------------------------------------------------------------------ *)
(** ** The statements at concrete inputs *)

Lemma rate_limit_window_capacity_witness :
  limiter_run [100; 101; 102; 103; 104] init
  = ([false; false; false; false; false], Agent [] ∅ [100; 101; 102; 103; 104])
  ∧ limiter_run ([100; 101; 102; 103; 104] ++ [105]) init
    = ([false; false; false; false; false] ++ [true],
       Agent [] ∅ [100; 101; 102; 103; 104])
  ∧ 40 ∉ request_timestamps (is_rate_limited 105 (Agent [] ∅ [40; 50])).2.
Proof.
  split; [|split].
  - apply (proj1 (rate_limit_window_capacity init) [100; 101; 102; 103; 104]).
    + simpl. unfold in_window, rate_limit_window. repeat split; repeat constructor; lia.
    + simpl. unfold rate_limit_max_requests. lia.
  - apply (proj1 (proj2 (rate_limit_window_capacity init)) [100; 101; 102; 103; 104] 105).
    + simpl. unfold in_window, rate_limit_window. repeat split; repeat constructor; lia.
    + reflexivity.
  - apply (proj1 (proj2 (proj2 (proj2 (rate_limit_window_capacity (Agent [] ∅ [40; 50]))) 105)) 40).
    unfold rate_limit_window. lia.
Defined.

Lemma price_lookup_raises_on_non_object_body_witness :
  (get_crypto_price no_container (JStr "bitcoin")
     (PriceEnv 100 100 (Response 200 (Some (JArr [])))) init).1.1
  = Raise AttributeError.
Proof.
  apply (price_lookup_raises_on_non_object_body no_container "bitcoin"
           (PriceEnv 100 100 (Response 200 (Some (JArr [])))) init 200 (JArr []));
    [reflexivity|reflexivity|reflexivity|reflexivity|discriminate].
Defined.

Lemma price_lookup_parsed_response_witness :
  (get_crypto_price no_container (JStr "bitcoin")
     (PriceEnv 100 100 (Response 200 (Some (bitcoin_body (JInt 65000))))) init).1.1
  = Ok bitcoin_text
  ∧ cache (get_crypto_price no_container (JStr "bitcoin")
             (PriceEnv 100 100 (Response 200 (Some (bitcoin_body (JInt 65000))))) init).1.2
    = <["bitcoin" := CacheEntry bitcoin_text 100]> ∅.
Proof.
  apply (price_lookup_parsed_response no_container "bitcoin"
           (PriceEnv 100 100 (Response 200 (Some (bitcoin_body (JInt 65000))))) init
           200 [("bitcoin", JObj [("usd", JInt 65000)])]);
    [reflexivity|reflexivity|reflexivity|lia|exact I].
Defined.

(** C3 as stated fails when the [usd] field is present with the price 0:
    the lookup answers that the price is not available and stores nothing. *)
Lemma zero_price_reported_unavailable :
  usd_field "bitcoin" [("bitcoin", JObj [("usd", JInt 0)])] = Some (JInt 0)
  ∧ (get_crypto_price no_container (JStr "bitcoin")
       (PriceEnv 100 100 (Response 200 (Some (bitcoin_body (JInt 0))))) init).1.1
    = Ok not_available_message
  ∧ (get_crypto_price no_container (JStr "bitcoin")
       (PriceEnv 100 100 (Response 200 (Some (bitcoin_body (JInt 0))))) init).1.1
    ≠ Ok (price_message no_container (JStr "bitcoin") (JInt 0))
  ∧ cache (get_crypto_price no_container (JStr "bitcoin")
             (PriceEnv 100 100 (Response 200 (Some (bitcoin_body (JInt 0))))) init).1.2
    !! "bitcoin" = None.
Proof. vm_compute. repeat split; congruence. Qed.

Lemma rejected_or_failed_lookup_keeps_cache_witness :
  ((get_crypto_price no_container (JStr "bitcoin")
      (PriceEnv 6 6 (Response 500 None)) full_agent).1.1 = Ok rate_limit_message
   ∧ cache (get_crypto_price no_container (JStr "bitcoin")
              (PriceEnv 6 6 (Response 500 None)) full_agent).1.2 = cache full_agent
   ∧ (get_crypto_price no_container (JStr "bitcoin")
        (PriceEnv 6 6 (Response 500 None)) full_agent).2 = [])
  ∧ cache (get_crypto_price no_container (JStr "bitcoin")
             (PriceEnv 6 6 (Response 500 None)) full_agent).1.2 = cache full_agent.
Proof.
  split.
  - apply (proj1 (rejected_or_failed_lookup_keeps_cache no_container (JStr "bitcoin")
                    (PriceEnv 6 6 (Response 500 None)) full_agent)).
    reflexivity.
  - apply (proj2 (rejected_or_failed_lookup_keeps_cache no_container (JStr "bitcoin")
                    (PriceEnv 6 6 (Response 500 None)) full_agent)).
    reflexivity.
Defined.

Lemma classify_intent_defaults_witness :
  classify_intent loads_table (reply_env (fenced text_intent_crypto)) "price of bitcoin?"
  = Ok [("intent", JStr "crypto")]
  ∧ classify_intent loads_table failing_env "price of bitcoin?" = Ok general_intent.
Proof.
  pose proof (classify_intent_defaults loads_table no_container
                (reply_env (fenced text_intent_crypto)) "price of bitcoin?")
    as (_ & _ & Hreply & _).
  pose proof (classify_intent_defaults loads_table no_container failing_env "price of bitcoin?")
    as (_ & Hraise & _).
  split.
  - apply (proj1 (proj2 (proj2
             (Hreply (Completion [] (Some (fenced text_intent_crypto)))
                     (fenced text_intent_crypto) eq_refl eq_refl)
             text_intent_crypto eq_refl))
             [("intent", JStr "crypto")] (JStr "crypto"));
      reflexivity.
  - apply (Hraise OtherException). reflexivity.
Defined.

(** C5 as stated fails when the fenced block is an object without the
    [intent] field: [classify_intent] returns [{"intent": None}], not the
    [general] intent. *)
Lemma missing_intent_field_gives_none :
  re_search (fenced text_empty_object) = Some text_empty_object
  ∧ loads_table text_empty_object = Some (JObj [])
  ∧ classify_intent loads_table (reply_env (fenced text_empty_object)) "hello"
    = Ok [("intent", JNull)]
  ∧ classify_intent loads_table (reply_env (fenced text_empty_object)) "hello"
    ≠ Ok general_intent.
Proof. vm_compute. repeat split; congruence. Qed.

Lemma introduction_added_at_most_once_witness :
  intro_count loads_table no_container
    [("price of bitcoin?", reply_env (fenced text_intent_crypto))]
    (Agent [Message "assistant" (Some "Hi.")] ∅ [])
  = 0%nat
  ∧ crypto_branch_from loads_table no_container price_turn_env
      (add_message_to_context
         (Agent [Message "user" (Some "price of bitcoin?")] ∅ [])
         "assistant" (Some intro_message))
      (process_crypto_query loads_table no_container price_turn_env
         "price of bitcoin?"
         (Agent [Message "user" (Some "price of bitcoin?")] ∅ []))
  ∧ crypto_branch_from loads_table no_container price_turn_env
      (Agent [Message "assistant" (Some "Hi.");
              Message "user" (Some "price of bitcoin?")] ∅ [])
      (process_crypto_query loads_table no_container price_turn_env
         "price of bitcoin?"
         (Agent [Message "assistant" (Some "Hi.");
                 Message "user" (Some "price of bitcoin?")] ∅ [])).
Proof.
  split; [|split].
  - apply (introduction_added_at_most_once loads_table no_container
             failing_env "" [("price of bitcoin?", reply_env (fenced text_intent_crypto))]
             (Agent [Message "assistant" (Some "Hi.")] ∅ [])).
    reflexivity.
  - apply (introduction_added_at_most_once loads_table no_container
             price_turn_env "price of bitcoin?" []
             (Agent [Message "user" (Some "price of bitcoin?")] ∅ [])).
    simpl. repeat constructor. discriminate.
  - apply (introduction_added_at_most_once loads_table no_container
             price_turn_env "price of bitcoin?" []
             (Agent [Message "assistant" (Some "Hi.");
                     Message "user" (Some "price of bitcoin?")] ∅ [])).
    simpl. apply Exists_cons_hd. reflexivity.
Defined.

Lemma handler_failure_is_caught_witness :
  context (process_general_query failing_env
             (Agent [Message "user" (Some "hello")] ∅ [])).1.2
  = [Message "user" (Some "hello")]
  ∧ (∃ replies,
      context (process_crypto_query loads_table no_container two_calls_env
                 "price of bitcoin?"
                 (Agent [Message "user" (Some "price of bitcoin?")] ∅ [])).1.2
      = context (add_intro (Agent [Message "user" (Some "price of bitcoin?")] ∅ []))
        ++ replies
      ∧ Forall is_assistant replies
      ∧ (length replies < 2)%nat)
  ∧ process_general_query failing_env (Agent [Message "user" (Some "hello")] ∅ [])
    = (Ok (), Agent [Message "user" (Some "hello")] ∅ [], [])
  ∧ (∃ handled tc rest a1 sent1 a2 sent2 replies,
      [ToolCall "get_crypto_price" text_symbol_bitcoin;
       ToolCall "get_crypto_price" "bitcoin"] = handled ++ tc :: rest
      ∧ function_name tc = "get_crypto_price"
      ∧ calls_completed loads_table no_container two_calls_env handled 0
          (add_intro (Agent [Message "user" (Some "price of bitcoin?")] ∅ []))
          a1 sent1
      ∧ call_fails loads_table no_container two_calls_env tc (price_calls handled)
          a1 JSONDecodeError a2 sent2
      ∧ process_crypto_query loads_table no_container two_calls_env
          "price of bitcoin?"
          (Agent [Message "user" (Some "price of bitcoin?")] ∅ [])
        = (Ok (), a2, sent1 ++ sent2)
      ∧ context a2
        = context (add_intro (Agent [Message "user" (Some "price of bitcoin?")] ∅ []))
          ++ replies
      ∧ Forall is_assistant replies
      ∧ length replies = price_calls handled)
  ∧ add_intro (Agent [Message "user" (Some "price of bitcoin?")] ∅ [])
    = add_message_to_context (Agent [Message "user" (Some "price of bitcoin?")] ∅ [])
        "assistant" (Some intro_message).
Proof.
  pose proof (handler_failure_is_caught loads_table no_container failing_env ""
                (Agent [Message "user" (Some "hello")] ∅ []))
    as (_ & _ & _ & Hgeneral & _ & _ & Hgeneral' & _).
  pose proof (handler_failure_is_caught loads_table no_container two_calls_env
                "price of bitcoin?"
                (Agent [Message "user" (Some "price of bitcoin?")] ∅ []))
    as (_ & _ & _ & _ & _ & Hloop & _ & _ & Hfails & Hfirst & _).
  split; [|split; [|split; [|split]]].
  - apply (Hgeneral OtherException). reflexivity.
  - apply (Hloop JSONDecodeError
             (Completion [ToolCall "get_crypto_price" text_symbol_bitcoin;
                          ToolCall "get_crypto_price" "bitcoin"] None));
      reflexivity.
  - apply (Hgeneral' OtherException). reflexivity.
  - apply (Hfails JSONDecodeError
             (Completion [ToolCall "get_crypto_price" text_symbol_bitcoin;
                          ToolCall "get_crypto_price" "bitcoin"] None));
      reflexivity.
  - apply Hfirst. simpl. repeat constructor. discriminate.
Defined.

(** C7 as stated fails in a first crypto turn whose completion call raises:
    the exception is caught, and the turn has appended the introduction, an
    assistant message. *)
Lemma failed_crypto_turn_keeps_introduction :
  (crypto_try loads_table no_container crypto_then_failure_env
     (add_intro (Agent [Message "user" (Some "price of bitcoin?")] ∅ []))).1.1
  = Raise OtherException
  ∧ context (process_user_message loads_table no_container crypto_then_failure_env
               "price of bitcoin?" init).1.2
    = [Message "user" (Some "price of bitcoin?");
       Message "assistant" (Some intro_message)].
Proof. vm_compute. split; reflexivity. Qed.

(** The same in a later turn: the reply to a first price call stays in the
    context when the arguments of the second do not parse. *)
Example failed_tool_call_keeps_earlier_reply :
  context (process_crypto_query loads_table no_container two_calls_env
             "price of bitcoin?"
             (Agent [Message "assistant" (Some "Hi.");
                     Message "user" (Some "price of bitcoin?")] ∅ [])).1.2
  = [Message "assistant" (Some "Hi.");
     Message "user" (Some "price of bitcoin?");
     Message "assistant" (Some bitcoin_text)].
Proof. vm_compute. reflexivity. Qed.

Lemma repeated_lookup_served_from_cache_witness :
  (get_crypto_price no_container (JStr "bitcoin") (PriceEnv 130 130 Unreachable)
     (get_crypto_price no_container (JStr "bitcoin")
        (PriceEnv 100 100 (Response 200 (Some (bitcoin_body (JInt 65000))))) init).1.2).1.1
  = Ok bitcoin_text
  ∧ (get_crypto_price no_container (JStr "bitcoin")
       (PriceEnv 101 101 (Response 200 (Some (bitcoin_body (JInt 65000)))))
       (get_crypto_price no_container (JStr "bitcoin")
          (PriceEnv 100 100 (Response 500 None)) init).1.2).2
    = [JStr "bitcoin"].
Proof.
  split.
  - apply (proj1 (repeated_lookup_served_from_cache no_container "bitcoin"
                    (PriceEnv 100 100 (Response 200 (Some (bitcoin_body (JInt 65000)))))
                    (PriceEnv 130 130 Unreachable) init (CacheEntry bitcoin_text 100)));
      [reflexivity|reflexivity|reflexivity|simpl; lia].
  - apply (proj2 (repeated_lookup_served_from_cache no_container "bitcoin"
                    (PriceEnv 100 100 (Response 500 None))
                    (PriceEnv 101 101 (Response 200 (Some (bitcoin_body (JInt 65000)))))
                    init (CacheEntry bitcoin_text 100)));
      [right; left; reflexivity|reflexivity|reflexivity].
Defined.

(** C9 as stated fails when the first of two lookups one second apart meets
    an HTTP 500: nothing is cached, the second lookup asks the API again, the
    two answers differ and two requests are sent. *)
Lemma failed_lookup_is_fetched_again :
  (get_crypto_price no_container (JStr "bitcoin") (PriceEnv 100 100 (Response 500 None))
     init).1.1 = Ok failed_message
  ∧ (get_crypto_price no_container (JStr "bitcoin")
       (PriceEnv 101 101 (Response 200 (Some (bitcoin_body (JInt 65000)))))
       (get_crypto_price no_container (JStr "bitcoin")
          (PriceEnv 100 100 (Response 500 None)) init).1.2).1.1 = Ok bitcoin_text
  ∧ (get_crypto_price no_container (JStr "bitcoin") (PriceEnv 100 100 (Response 500 None))
       init).2
    ++ (get_crypto_price no_container (JStr "bitcoin")
          (PriceEnv 101 101 (Response 200 (Some (bitcoin_body (JInt 65000)))))
          (get_crypto_price no_container (JStr "bitcoin")
             (PriceEnv 100 100 (Response 500 None)) init).1.2).2
    = [JStr "bitcoin"; JStr "bitcoin"].
Proof. vm_compute. repeat split; reflexivity. Qed.

Lemma accepted_lookup_records_timestamp_witness :
  request_timestamps
    (get_crypto_price no_container (JStr "bitcoin") (PriceEnv 130 131 Unreachable)
       (Agent [] (<["bitcoin" := CacheEntry bitcoin_text 100]> ∅) [100])).1.2
  = [100; 130]
  ∧ (get_crypto_price no_container (JStr "bitcoin") (PriceEnv 130 131 Unreachable)
       (Agent [] (<["bitcoin" := CacheEntry bitcoin_text 100]> ∅) [100])).2 = [].
Proof.
  pose proof (accepted_lookup_records_timestamp no_container (JStr "bitcoin")
                (PriceEnv 130 131 Unreachable)
                (Agent [] (<["bitcoin" := CacheEntry bitcoin_text 100]> ∅) [100])
                eq_refl) as [Hrecord Hcached].
  split.
  - exact Hrecord.
  - apply (Hcached "bitcoin" (CacheEntry bitcoin_text 100)); [reflexivity|reflexivity|simpl; lia].
Defined.

(** One fetch and four answers from the cache fill the window: the sixth
    lookup is rejected although a single request was sent. *)
Example cached_lookups_fill_the_window :
  let fetch := PriceEnv 100 100 (Response 200 (Some (bitcoin_body (JInt 65000)))) in
  let again t := PriceEnv t t Unreachable in
  let a1 := (get_crypto_price no_container (JStr "bitcoin") fetch init).1.2 in
  let a2 := (get_crypto_price no_container (JStr "bitcoin") (again 101) a1).1.2 in
  let a3 := (get_crypto_price no_container (JStr "bitcoin") (again 102) a2).1.2 in
  let a4 := (get_crypto_price no_container (JStr "bitcoin") (again 103) a3).1.2 in
  let a5 := (get_crypto_price no_container (JStr "bitcoin") (again 104) a4) in
  a5.1.1 = Ok bitcoin_text
  ∧ request_timestamps a5.1.2 = [100; 101; 102; 103; 104]
  ∧ (get_crypto_price no_container (JStr "bitcoin") (again 105) a5.1.2).1.1
    = Ok rate_limit_message.
Proof. vm_compute. repeat split; reflexivity. Qed.

Lemma cached_agent_formatted : cache_formatted no_container (cache cached_agent).
Proof.
  intros k e. unfold cached_agent. simpl.
  destruct (decide (k = "bitcoin")) as [->|Hne].
  - rewrite lookup_insert_eq. intros [= <-]. by exists (JInt 65000).
  - by rewrite lookup_insert_ne.
Qed.

Lemma record_stays_bounded_witness :
  record_bounded (is_rate_limited 6 full_agent).2
  ∧ record_bounded
      (get_crypto_price no_container (JStr "bitcoin") (PriceEnv 61 61 Unreachable)
         full_agent).1.2
  ∧ record_bounded
      (process_user_message loads_table no_container two_calls_env
         "price of bitcoin?" full_agent).1.2
  ∧ record_bounded
      (conversation loads_table no_container
         [("price of bitcoin?", two_calls_env)] full_agent).1.
Proof.
  apply (record_stays_bounded loads_table no_container 6 (JStr "bitcoin")
           (PriceEnv 61 61 Unreachable) two_calls_env "price of bitcoin?"
           [("price of bitcoin?", two_calls_env)] full_agent).
  unfold record_bounded, rate_limit_max_requests. simpl. lia.
Defined.

Lemma rate_limit_recovers_witness :
  (is_rate_limited 61 full_agent).1 = false
  ∧ (1 ∉ request_timestamps (is_rate_limited 61 full_agent).2)
  ∧ (61 ∈ request_timestamps (is_rate_limited 61 full_agent).2).
Proof.
  apply (rate_limit_recovers 61 1 full_agent).
  - unfold record_bounded, rate_limit_max_requests. simpl. lia.
  - simpl. constructor.
  - unfold rate_limit_window. lia.
Defined.

Lemma rate_limit_sliding_window_witness :
  Nat.le (window_count 105 (accepted_run [100; 101; 102; 103; 104; 105; 161] init))
         rate_limit_max_requests.
Proof.
  apply (rate_limit_sliding_window [100; 101; 102; 103; 104; 105; 161] 100 init 105).
  - reflexivity.
  - simpl. lia.
Defined.

Lemma price_requests_sliding_window_witness :
  Nat.le (window_count 105
            (request_times no_container
               ((λ t, (JStr "bitcoin", PriceEnv t t (Response 500 None)))
                  <$> [100; 101; 102; 103; 104; 105]) init))
         rate_limit_max_requests.
Proof.
  apply (price_requests_sliding_window no_container
           ((λ t, (JStr "bitcoin", PriceEnv t t (Response 500 None)))
              <$> [100; 101; 102; 103; 104; 105]) 100 init 105).
  - reflexivity.
  - simpl. lia.
Defined.

Lemma price_lookup_cache_frame_witness :
  cache (get_crypto_price no_container (JStr "ethereum")
           (PriceEnv 130 130
              (Response 200 (Some (JObj [("ethereum", JObj [("usd", JInt 3000)])]))))
           cached_agent).1.2 !! "bitcoin"
  = cache cached_agent !! "bitcoin"
  ∧ is_Some
      (cache (get_crypto_price no_container (JStr "bitcoin")
                (PriceEnv 200 200 (Response 200 (Some (bitcoin_body (JInt 70000)))))
                cached_agent).1.2 !! "bitcoin").
Proof.
  split.
  - apply (proj1 (price_lookup_cache_frame no_container (JStr "ethereum")
                    (PriceEnv 130 130
                       (Response 200 (Some (JObj [("ethereum", JObj [("usd", JInt 3000)])]))))
                    cached_agent "bitcoin")).
    discriminate.
  - apply (proj2 (price_lookup_cache_frame no_container (JStr "bitcoin")
                    (PriceEnv 200 200 (Response 200 (Some (bitcoin_body (JInt 70000)))))
                    cached_agent "bitcoin")).
    by eexists.
Defined.

Lemma cache_holds_price_messages_witness :
  cache_formatted no_container
    (cache (get_crypto_price no_container (JStr "ethereum")
              (PriceEnv 130 130
                 (Response 200 (Some (JObj [("ethereum", JObj [("usd", JInt 3000)])]))))
              cached_agent).1.2)
  ∧ cache_formatted no_container
      (cache (process_user_message loads_table no_container two_calls_env
                "price of bitcoin?" cached_agent).1.2)
  ∧ cache_formatted no_container
      (cache (conversation loads_table no_container
                [("price of bitcoin?", two_calls_env)] cached_agent).1).
Proof.
  apply (cache_holds_price_messages loads_table no_container (JStr "ethereum")
           (PriceEnv 130 130
              (Response 200 (Some (JObj [("ethereum", JObj [("usd", JInt 3000)])]))))
           two_calls_env "price of bitcoin?"
           [("price of bitcoin?", two_calls_env)] cached_agent).
  exact cached_agent_formatted.
Defined.

Lemma stale_entry_is_fetched_again_witness :
  (get_crypto_price no_container (JStr "bitcoin") (PriceEnv 160 160 (Response 500 None))
     cached_agent).2 = [JStr "bitcoin"]
  ∧ (get_crypto_price no_container (JStr "bitcoin")
       (PriceEnv 160 160 (Response 500 None)) cached_agent).1.1 = Ok failed_message
  ∧ cache (get_crypto_price no_container (JStr "bitcoin")
             (PriceEnv 160 160 (Response 500 None)) cached_agent).1.2 !! "bitcoin"
    = Some (CacheEntry bitcoin_text 100).
Proof.
  pose proof (stale_entry_is_fetched_again no_container "bitcoin"
                (CacheEntry bitcoin_text 100) (PriceEnv 160 160 (Response 500 None))
                cached_agent) as H.
  destruct H as [Hsent Hfail]; [reflexivity|reflexivity|simpl; lia|].
  split; [exact Hsent|]. apply Hfail. reflexivity.
Defined.

Lemma price_lookup_answers_witness :
  bitcoin_text = rate_limit_message ∨ bitcoin_text = failed_message
  ∨ bitcoin_text = not_available_message
  ∨ ∃ k price_value, JStr "bitcoin" = JStr k ∧ truthy price_value = true
                     ∧ bitcoin_text = price_message no_container (JStr k) price_value.
Proof.
  apply (price_lookup_answers no_container (JStr "bitcoin")
           (PriceEnv 130 130 Unreachable) cached_agent bitcoin_text).
  - exact cached_agent_formatted.
  - reflexivity.
Defined.


Lemma price_lookup_returns_on_object_bodies_witness :
  ∃ text,
    (get_crypto_price no_container (JStr "bitcoin")
       (PriceEnv 100 100 (Response 200 (Some (bitcoin_body (JInt 0))))) init).1.1
    = Ok text.
Proof.
  apply (price_lookup_returns_on_object_bodies no_container "bitcoin"
           (PriceEnv 100 100 (Response 200 (Some (bitcoin_body (JInt 0))))) init).
  - intros e H. discriminate H.
  - intros status_code e H. discriminate H.
  - intros status_code data [= <- <-] _.
    eexists. split; [reflexivity|exact I].
Defined.

Lemma other_intents_make_no_lookup_witness :
  (process_user_message loads_language no_container
     (reply_env (fenced text_intent_language)) "parle francais" full_agent).2 = []
  ∧ cache (process_user_message loads_language no_container
             (reply_env (fenced text_intent_language)) "parle francais" full_agent).1.2
    = cache full_agent
  ∧ request_timestamps
      (process_user_message loads_language no_container
         (reply_env (fenced text_intent_language)) "parle francais" full_agent).1.2
    = request_timestamps full_agent
  ∧ context (process_user_message loads_language no_container
               (reply_env (fenced text_intent_language)) "parle francais" full_agent).1.2
    = context full_agent
      ++ [Message "user" (Some "parle francais");
          Message "assistant" (Some language_change_message)].
Proof.
  pose proof (other_intents_make_no_lookup loads_language no_container
                (reply_env (fenced text_intent_language)) "parle francais"
                (JStr "language_change") full_agent eq_refl eq_refl)
    as (Hsent & Hcache & Hrecord & Hcontext).
  split; [exact Hsent|]. split; [exact Hcache|]. split; [exact Hrecord|].
  apply Hcontext. reflexivity.
Defined.

Lemma re_search_sound_witness :
  ∃ before inside after,
    text_intent_crypto = "{" +:+ inside +:+ "}"
    ∧ "Sure: " +:+ fenced text_intent_crypto +:+ " Bye."
      = before +:+ fence_open +:+ inside +:+ fence_close +:+ after.
Proof.
  apply (re_search_sound ("Sure: " +:+ fenced text_intent_crypto +:+ " Bye.")
           text_intent_crypto).
  reflexivity.
Defined.

Lemma crypto_reply_without_price_call_witness :
  crypto_try loads_table no_container (reply_env "Bitcoin is a cryptocurrency.")
    (Agent [Message "user" (Some "what is bitcoin?")] ∅ [])
  = (Ok (),
     add_message_to_context (Agent [Message "user" (Some "what is bitcoin?")] ∅ [])
       "assistant" (Some "Bitcoin is a cryptocurrency."),
     []).
Proof.
  apply (crypto_reply_without_price_call loads_table no_container
           (reply_env "Bitcoin is a cryptocurrency.")
           (Completion [] (Some "Bitcoin is a cryptocurrency."))
           (Agent [Message "user" (Some "what is bitcoin?")] ∅ []));
    reflexivity.
Defined.

Lemma malformed_tool_call_ends_loop_witness :
  ∃ e,
    tool_loop loads_table no_container two_calls_env
      [ToolCall "get_crypto_price" "bitcoin";
       ToolCall "get_crypto_price" text_symbol_bitcoin] 0 init
    = (Raise e, init, [])
    ∧ (e = JSONDecodeError ∨ e = KeyError ∨ e = TypeError).
Proof.
  apply (malformed_tool_call_ends_loop loads_table no_container two_calls_env
           (ToolCall "get_crypto_price" "bitcoin")
           [ToolCall "get_crypto_price" text_symbol_bitcoin] 0%nat init).
  - reflexivity.
  - intros arguments crypto_symbol H. vm_compute in H. discriminate.
Defined.

Lemma conversation_user_messages_witness :
  filter is_user
    (context (conversation loads_table no_container
                [("hello", reply_env "Hi there.");
                 ("price of bitcoin?", two_calls_env)] init).1)
  = filter is_user (context init)
    ++ [Message "user" (Some "hello"); Message "user" (Some "price of bitcoin?")]
  ∧ Forall (λ m, is_user m ∨ is_assistant m)
      (context (conversation loads_table no_container
                  [("hello", reply_env "Hi there.");
                   ("price of bitcoin?", two_calls_env)] init).1).
Proof.
  destruct (conversation_user_messages loads_table no_container
              [("hello", reply_env "Hi there.");
               ("price of bitcoin?", two_calls_env)] init) as [Husers Hroles].
  split; [exact Husers|]. apply Hroles. constructor.
Defined.

Lemma exit_in_any_case_witness : is_exit "Exit" = true.
Proof.
  apply (proj2 (exit_in_any_case "Exit")).
  exists "E"%char, "x"%char, "i"%char, "t"%char. repeat split; auto.
Defined.

Lemma loop_stops_at_exit_witness :
  start_conversation loads_table no_container
    ([Line "hello" (reply_env "Hi there.")]
       ++ Line "EXIT" failing_env :: [Line "price of bitcoin?" two_calls_env]) init
  = start_conversation loads_table no_container
      [Line "hello" (reply_env "Hi there.")] init
  ∧ start_conversation loads_table no_container
      [Line "hello" (reply_env "Hi there.")] init
    = conversation loads_table no_container
        (processed_turns [Line "hello" (reply_env "Hi there.")]) init.
Proof.
  apply (loop_stops_at_exit loads_table no_container
           [Line "hello" (reply_env "Hi there.")] (Line "EXIT" failing_env)
           [Line "price of bitcoin?" two_calls_env] init).
  right. exists "EXIT", failing_env. split; reflexivity.
Defined.

Lemma crypto_turn_reports_price_witness :
  (process_user_message loads_table no_container price_turn_env
     "What is the price of bitcoin?" init).1.1 = Ok ()
  ∧ context (process_user_message loads_table no_container price_turn_env
               "What is the price of bitcoin?" init).1.2
    = [Message "user" (Some "What is the price of bitcoin?");
       Message "assistant" (Some intro_message);
       Message "assistant" (Some bitcoin_text)]
  ∧ (process_user_message loads_table no_container price_turn_env
       "What is the price of bitcoin?" init).2 = [JStr "bitcoin"]
  ∧ cache (process_user_message loads_table no_container price_turn_env
             "What is the price of bitcoin?" init).1.2
    = <["bitcoin" := CacheEntry bitcoin_text 100]> ∅
  ∧ request_timestamps
      (process_user_message loads_table no_container price_turn_env
         "What is the price of bitcoin?" init).1.2
    = [100].
Proof.
  apply (crypto_turn_reports_price loads_table no_container price_turn_env
           "What is the price of bitcoin?" init None
           (ToolCall "get_crypto_price" text_symbol_bitcoin)
           [("crypto_symbol", JStr "bitcoin")] "bitcoin" 200
           [("bitcoin", JObj [("usd", JInt 65000)])] [("usd", JInt 65000)]
           (JInt 65000));
    reflexivity.
Defined.
